(** * analyzefile: the analysis-request lifecycle and the localization
      provider of [src/App.tsx]

    Definitions, in the order of the source file:
    - [Js]            JavaScript strings (UTF-16 code units), truthiness and
                      [String.prototype.trim];
    - [Localization]  the [translations] table and the lookup [t];
    - [Effects]       thrown values, the state cells of [AppContent], and a
                      state-and-exception monad for its setters, its
                      console and its two collaborators;
    - [Orchestrator]  [getTextToAnalyze] and [handleAnalyze];
    - [Shell]         the [App] component: [language], [setLanguage] and
                      the effect that writes the document attributes;
    - [Samples]       concrete inputs;
    - [Lifecycle]     the calls, the console lines and the sessions of
                      [handleAnalyze];
    - [Provider]      [useLocalization] and the context [App] provides.

    Then the facts: [JsFacts], [EffectsFacts], [LocalizationFacts],
    [OrchestratorFacts] and [ShellFacts], followed by [LifecycleFacts],
    [TrimFacts], [TableFacts], [SwitchFacts] and [ProviderFacts].

    The two collaborators, [extractTextFromFile] and [analyzeContent],
    are given by how the promise of each call settles: the development
    is about invocations whose awaited promises settle. *)

From Stdlib Require Import List NArith String Ascii Bool.
Import ListNotations.

Set Implicit Arguments.

(* ===================================================================== *)
(** ** JavaScript strings *)
(* ===================================================================== *)

Module Js.

Local Open Scope N_scope.

(** A JavaScript string is a sequence of 16-bit code units. *)
Definition JsString := list N.

(** The bytes of a literal as it stands in the (UTF-8) source file. *)
Definition bytes (s : string) : list N :=
  map N_of_ascii (list_ascii_of_string s).

(** UTF-8 decoding of the source text of a literal into code points. *)
Fixpoint code_points (bs : list N) : list N :=
  match bs with
  | [] => []
  | b0 :: r0 =>
    if b0 <? 0x80 then b0 :: code_points r0
    else
      match r0 with
      | [] => [0xFFFD]
      | b1 :: r1 =>
        if b0 <? 0xE0 then
          ((b0 mod 0x20) * 0x40 + b1 mod 0x40) :: code_points r1
        else
          match r1 with
          | [] => [0xFFFD]
          | b2 :: r2 =>
            if b0 <? 0xF0 then
              ((b0 mod 0x10) * 0x1000 + (b1 mod 0x40) * 0x40 + b2 mod 0x40)
                :: code_points r2
            else
              match r2 with
              | [] => [0xFFFD]
              | b3 :: r3 =>
                ((b0 mod 0x08) * 0x40000 + (b1 mod 0x40) * 0x1000
                 + (b2 mod 0x40) * 0x40 + b3 mod 0x40) :: code_points r3
              end
          end
      end
  end.

(** A code point as one code unit, or as a surrogate pair above the BMP. *)
Definition code_units (cp : N) : list N :=
  if cp <? 0x10000 then [cp]
  else [0xD800 + (cp - 0x10000) / 0x400; 0xDC00 + (cp - 0x10000) mod 0x400].

(** The string value denoted by a string literal of the source. *)
Definition lit (s : string) : JsString :=
  flat_map code_units (code_points (bytes s)).

(** ToBoolean on a string: only the empty string is falsy. *)
Definition truthy (s : JsString) : bool :=
  match s with
  | [] => false
  | _ :: _ => true
  end.

(** ECMAScript WhiteSpace: TAB, VT, FF, ZWNBSP and the category Zs. *)
Definition is_white_space (c : N) : bool :=
  (c =? 0x0009) || (c =? 0x000B) || (c =? 0x000C) || (c =? 0xFEFF)
  || (c =? 0x0020) || (c =? 0x00A0) || (c =? 0x1680)
  || ((0x2000 <=? c) && (c <=? 0x200A))
  || (c =? 0x202F) || (c =? 0x205F) || (c =? 0x3000).

(** ECMAScript LineTerminator: LF, CR, LS, PS. *)
Definition is_line_terminator (c : N) : bool :=
  (c =? 0x000A) || (c =? 0x000D) || (c =? 0x2028) || (c =? 0x2029).

(** What [trim] strips: white space and line terminators. *)
Definition strippable (c : N) : bool :=
  is_white_space c || is_line_terminator c.

Fixpoint trimStart (s : JsString) : JsString :=
  match s with
  | [] => []
  | c :: r => if strippable c then trimStart r else s
  end.

Definition trimEnd (s : JsString) : JsString :=
  rev (trimStart (rev s)).

(** [String.prototype.trim]. *)
Definition trim (s : JsString) : JsString :=
  trimEnd (trimStart s).

(** A blank string: empty, or made of strippable code units only. *)
Definition blank (s : JsString) : bool := forallb strippable s.

(** The test [!s.trim()] of the source. *)
Definition not_trim (s : JsString) : bool := negb (truthy (trim s)).

End Js.

(* ===================================================================== *)
(** ** Localization: the [translations] table and [t] *)
(* ===================================================================== *)

Module Localization.

Import Js.

(** [type Language = 'en' | 'ar'] *)
Inductive Language := en | ar.

(** [type TranslationKey = keyof typeof translations.en] *)
Inductive TranslationKey :=
| appTitle | appDescription | language | textInputTab | fileUploadTab
| textInputPlaceholder | fileUploadPrompt | fileUploadSupported
| analyzeButton | analyzingButton | fileSelected | fileSize | changeFile
| resultsTitle | initialStateTitle | initialStateDescription
| summaryTitle | keywordsTitle
| errorGeneric | errorNoText | errorNoFile | errorFileRead
| errorNoTextExtracted | footerText.

Scheme Equality for TranslationKey.

(** An object literal whose properties are translation keys. *)
Definition Table := list (TranslationKey * JsString).

(** Property read [o[key]]; [None] stands for [undefined]. *)
Fixpoint get (o : Table) (key : TranslationKey) : option JsString :=
  match o with
  | [] => None
  | (k, v) :: r => if TranslationKey_beq k key then Some v else get r key
  end.

Definition translations_en : Table :=
  [ (appTitle, lit "AI Content Analyzer");
    (appDescription, lit "Instantly summarize articles, papers, or any text to grasp key insights.");
    (language, lit "العربية");
    (textInputTab, lit "Enter Text");
    (fileUploadTab, lit "Upload File");
    (textInputPlaceholder, lit "Paste your article, report, or any text here...");
    (fileUploadPrompt, lit "Click to browse or drag & drop a file");
    (fileUploadSupported, lit "Supports .txt, .md, .pdf, .pptx");
    (analyzeButton, lit "Analyze Content");
    (analyzingButton, lit "Analyzing...");
    (fileSelected, lit "File Selected");
    (fileSize, lit "KB");
    (changeFile, lit "Choose a different file");
    (resultsTitle, lit "Analysis Results");
    (initialStateTitle, lit "Awaiting Analysis");
    (initialStateDescription, lit "Your summary and keywords will appear here once the analysis is complete.");
    (summaryTitle, lit "Summary");
    (keywordsTitle, lit "Keywords");
    (errorGeneric, lit "An error occurred during analysis. Please try again.");
    (errorNoText, lit "Please enter some text to analyze.");
    (errorNoFile, lit "Please select a file to analyze.");
    (errorFileRead, lit "Failed to read or parse the file. Please ensure it's not corrupted.");
    (errorNoTextExtracted, lit "Could not extract any text from the file. It might be empty or image-based.");
    (footerText, lit "Powered by Google Gemini. Built with React & Tailwind CSS.") ].

Definition translations_ar : Table :=
  [ (appTitle, lit "محلل المحتوى بالذكاء الاصطناعي");
    (appDescription, lit "لخص المقالات والأبحاث وأي نص على الفور لفهم الأفكار الرئيسية.");
    (language, lit "English");
    (textInputTab, lit "إدخال النص");
    (fileUploadTab, lit "رفع ملف");
    (textInputPlaceholder, lit "الصق مقالك أو تقريرك أو أي نص هنا...");
    (fileUploadPrompt, lit "انقر للتصفح أو اسحب وأفلت ملفًا");
    (fileUploadSupported, lit "يدعم ملفات .txt, .md, .pdf, .pptx");
    (analyzeButton, lit "تحليل المحتوى");
    (analyzingButton, lit "جاري التحليل...");
    (fileSelected, lit "الملف المحدد");
    (fileSize, lit "كيلوبايت");
    (changeFile, lit "اختيار ملف مختلف");
    (resultsTitle, lit "نتائج التحليل");
    (initialStateTitle, lit "في انتظار التحليل");
    (initialStateDescription, lit "سيظهر ملخصك وكلماتك الرئيسية هنا بمجرد اكتمال التحليل.");
    (summaryTitle, lit "الملخص");
    (keywordsTitle, lit "الكلمات الرئيسية");
    (errorGeneric, lit "حدث خطأ أثناء التحليل. يرجى المحاولة مرة أخرى.");
    (errorNoText, lit "الرجاء إدخال بعض النص لتحليله.");
    (errorNoFile, lit "الرجاء اختيار ملف لتحليله.");
    (errorFileRead, lit "فشل في قراءة الملف أو تحليله. يرجى التأكد من أنه غير تالف.");
    (errorNoTextExtracted, lit "تعذر استخلاص أي نص من الملف. قد يكون فارغًا أو يحتوي على صور فقط.");
    (footerText, lit "مدعوم بواسطة Google Gemini. تم إنشاؤه باستخدام React و Tailwind CSS.") ].

(** [const translations = { en: {...}, ar: {...} }] *)
Definition translations (l : Language) : Table :=
  match l with
  | en => translations_en
  | ar => translations_ar
  end.

(** [a || b] on values that are a string or [undefined]. *)
Definition js_or (a b : option JsString) : option JsString :=
  match a with
  | Some s => if truthy s then a else b
  | None => b
  end.

(** The body of [t], over any pair of tables:
    [translations[language][key] || translations['en'][key]]. *)
Definition t_in (tr : Language -> Table) (lang : Language)
  (key : TranslationKey) : option JsString :=
  js_or (get (tr lang) key) (get (tr en) key).

(** [t] as the provider hands it out, for the active language [lang].
    Its declared return type is [string]; [t_defined] below shows that
    the table of the source never takes the [None] branch. *)
Definition t (lang : Language) (key : TranslationKey) : JsString :=
  match t_in translations lang key with
  | Some s => s
  | None => []
  end.

(** The entry of the table of [lang] for [key], as a string. *)
Definition entry (lang : Language) (key : TranslationKey) : JsString :=
  match get (translations lang) key with
  | Some s => s
  | None => []
  end.

End Localization.

(* ===================================================================== *)
(** ** Effects: thrown values, the component state and its trace *)
(* ===================================================================== *)

Module Effects.

Import Js.

(** The classes of error object the orchestrator tells apart with
    [instanceof].  Modelled from the spec: [FileProcessingError] is
    declared in [components/fileExtractor], which the source tree does
    not hold; the spec has it as the classified error kind the extractor
    raises, and it is taken here as a subclass of [Error]. *)
Inductive ErrorClass :=
| BaseError
| FileProcessingError
| OtherErrorClass (name : JsString).

(** What a [throw] (or a rejected promise) can carry: an [Error]
    instance with its [message], or any value that is not one. *)
Inductive JsThrown :=
| ErrorObject (cls : ErrorClass) (message : JsString)
| NonError (value : JsString).

(** [new Error(msg)] *)
Definition new_Error (msg : JsString) : JsThrown := ErrorObject BaseError msg.

(** [err instanceof Error] *)
Definition instanceof_Error (err : JsThrown) : bool :=
  match err with
  | ErrorObject _ _ => true
  | NonError _ => false
  end.

(** [err instanceof FileProcessingError] *)
Definition instanceof_FileProcessingError (err : JsThrown) : bool :=
  match err with
  | ErrorObject FileProcessingError _ => true
  | _ => false
  end.

(** The message text an error carries: the [message] of an [Error]
    instance; a thrown value that is no [Error] carries none. *)
Definition message_text (err : JsThrown) : option JsString :=
  match err with
  | ErrorObject _ m => Some m
  | NonError _ => None
  end.

(** Modelled from the spec: [AnalysisResult] is declared in [types],
    which the source tree does not hold; the spec gives it a summary
    text and an ordered sequence of keywords. *)
Record AnalysisResult := {
  summary : JsString;
  keywords : list JsString
}.

(** The [File] blob the user picked; the orchestrator only passes it on. *)
Record File := {
  file_name : JsString;
  file_type : JsString;
  file_bytes : list N
}.

(** The three state cells the lifecycle writes. *)
Record UiState := {
  analysisResult : option AnalysisResult;
  isLoading : bool;
  error : option JsString
}.

(** [useState(null)], [useState(false)], [useState(null)] *)
Definition initialUi : UiState :=
  {| analysisResult := None; isLoading := false; error := None |}.

(** Everything an invocation does that can be observed from outside. *)
Inductive Event :=
| SetIsLoading (b : bool)
| SetError (e : option JsString)
| SetAnalysisResult (r : option AnalysisResult)
| CallExtractTextFromFile (f : File)
| CallAnalyzeContent (text : JsString)
| ConsoleError (label : JsString) (err : JsThrown).

(** The effect of one event on the state cells. *)
Definition apply_event (s : UiState) (e : Event) : UiState :=
  match e with
  | SetIsLoading b =>
      {| analysisResult := analysisResult s; isLoading := b; error := error s |}
  | SetError x =>
      {| analysisResult := analysisResult s; isLoading := isLoading s; error := x |}
  | SetAnalysisResult r =>
      {| analysisResult := r; isLoading := isLoading s; error := error s |}
  | CallExtractTextFromFile _ | CallAnalyzeContent _ | ConsoleError _ _ => s
  end.

(** The state cells after a sequence of events. *)
Definition replay (s : UiState) (evs : list Event) : UiState :=
  fold_left apply_event evs s.

(** The state the cells go through, one per event. *)
Fixpoint states_along (s : UiState) (evs : list Event) : list UiState :=
  match evs with
  | [] => []
  | e :: r => apply_event s e :: states_along (apply_event s e) r
  end.

(** The state cells and the events so far, oldest first. *)
Record World := {
  ui : UiState;
  trace : list Event
}.

Definition start (s : UiState) : World := {| ui := s; trace := [] |}.

(** How a statement or an awaited promise completes. *)
Inductive Outcome (A : Type) :=
| Returned (a : A)
| Thrown (err : JsThrown).

Arguments Returned {A} a.
Arguments Thrown {A} err.

(** Computations of the component: they read and write the world and
    complete normally or by a throw; the world survives a throw. *)
Definition M (A : Type) := World -> Outcome A * World.

Definition ret {A} (a : A) : M A := fun w => (Returned a, w).

Definition bind {A B} (m : M A) (k : A -> M B) : M B :=
  fun w =>
    match m w with
    | (Returned a, w') => k a w'
    | (Thrown err, w') => (Thrown err, w')
    end.

(** [throw err] *)
Definition throw {A} (err : JsThrown) : M A := fun w => (Thrown err, w).

(** [try { m } catch (err) { h err }] *)
Definition try_catch {A} (m : M A) (h : JsThrown -> M A) : M A :=
  fun w =>
    match m w with
    | (Returned a, w') => (Returned a, w')
    | (Thrown err, w') => h err w'
    end.

(** [try { m } finally { f }]: [f] runs on every exit of [m]; a throw of
    [f] replaces the completion of [m]. *)
Definition try_finally {A} (m : M A) (f : M unit) : M A :=
  fun w =>
    match m w with
    | (o, w') =>
        match f w' with
        | (Returned _, w'') => (o, w'')
        | (Thrown err, w'') => (Thrown err, w'')
        end
    end.

(** One observable step: the event is recorded and applied. *)
Definition emit (e : Event) : M unit :=
  fun w => (Returned tt, {| ui := apply_event (ui w) e; trace := trace w ++ [e] |}).

Definition setIsLoading (b : bool) : M unit := emit (SetIsLoading b).
Definition setError (e : option JsString) : M unit := emit (SetError e).
Definition setAnalysisResult (r : option AnalysisResult) : M unit :=
  emit (SetAnalysisResult r).
Definition console_error (label : JsString) (err : JsThrown) : M unit :=
  emit (ConsoleError label err).

(** [await p], for a promise that settles with [o]: the call is
    recorded, then the awaiting code resumes with the value or the throw. *)
Definition await {A} (call : Event) (o : Outcome A) : M A :=
  fun w => (o, {| ui := ui w; trace := trace w ++ [call] |}).

Module Notations.
Notation "x <- m ;; k" := (bind m (fun x => k))
  (at level 61, m at next level, right associativity).
Notation "m ;; k" := (bind m (fun _ => k))
  (at level 61, right associativity).
End Notations.

End Effects.

(* ===================================================================== *)
(** ** Orchestrator: [getTextToAnalyze] and [handleAnalyze] *)
(* ===================================================================== *)

Module Orchestrator.

Import Js Localization Effects Effects.Notations.

(** [useState<'text' | 'file'>] *)
Inductive InputMode := ModeText | ModeFile.

(** What the closures of one render of [AppContent] capture: the lookup
    handed out by the localization context, the input cells, and the two
    collaborators, each given by how the promise of a call settles. *)
Record Env := {
  t : TranslationKey -> JsString;
  inputMode : InputMode;
  inputText : JsString;
  selectedFile : option File;
  extractTextFromFile : File -> Outcome JsString;
  analyzeContent : JsString -> Outcome AnalysisResult
}.

Definition getTextToAnalyze (env : Env) : M JsString :=
  match inputMode env with
  | ModeText =>
      if not_trim (inputText env)
      then throw (new_Error (t env errorNoText))
      else ret (inputText env)
  | ModeFile =>
      match selectedFile env with
      | None => throw (new_Error (t env errorNoFile))
      | Some file =>
          try_catch
            (extractedText <-
               await (CallExtractTextFromFile file) (extractTextFromFile env file) ;;
             if not_trim extractedText
             then throw (new_Error (t env errorNoTextExtracted))
             else ret extractedText)
            (fun err =>
               if instanceof_FileProcessingError err
               then console_error (lit "File processing error:") err ;;
                    throw (new_Error (t env errorFileRead))
               else throw err)
      end
  end.

(** The [catch] clause of [handleAnalyze]: [err instanceof Error] is
    the [ErrorObject] case, where [err.message] is read. *)
Definition onAnalysisFailed (env : Env) (err : JsThrown) : M unit :=
  console_error (lit "Analysis failed:") err ;;
  match err with
  | ErrorObject _ message => setError (Some message)
  | NonError _ => setError (Some (t env errorGeneric))
  end.

Definition handleAnalyze (env : Env) : M unit :=
  setIsLoading true ;;
  setError None ;;
  setAnalysisResult None ;;
  try_finally
    (try_catch
       (textToAnalyze <- getTextToAnalyze env ;;
        result <-
          await (CallAnalyzeContent textToAnalyze) (analyzeContent env textToAnalyze) ;;
        setAnalysisResult (Some result))
       (onAnalysisFailed env))
    (setIsLoading false).

(** The two awaited steps of the [try] block on their own: the text is
    resolved, then sent to the analysis client. *)
Definition analysis (env : Env) : M AnalysisResult :=
  textToAnalyze <- getTextToAnalyze env ;;
  await (CallAnalyzeContent textToAnalyze) (analyzeContent env textToAnalyze).

(** How the analysis of an invocation ends: with a result, or with the
    error that reaches the top of the lifecycle. *)
Definition analysis_outcome (env : Env) : Outcome AnalysisResult :=
  fst (analysis env (start initialUi)).

(** The events of those two steps: calls and console output. *)
Definition analysis_events (env : Env) : list Event :=
  trace (snd (analysis env (start initialUi))).

(** The text published for an error that reached the top: its message
    text, or the generic fallback when it carries none. *)
Definition surfaced (env : Env) (err : JsThrown) : JsString :=
  match message_text err with
  | Some m => m
  | None => t env errorGeneric
  end.

(** What the invocation does once the analysis has ended: the result
    is published, or the failure is logged and its text published. *)
Definition completion (env : Env) : list Event :=
  match analysis_outcome env with
  | Returned result => [SetAnalysisResult (Some result)]
  | Thrown err =>
      [ConsoleError (lit "Analysis failed:") err; SetError (Some (surfaced env err))]
  end.

(** Events that write no state cell. *)
Definition quiet (e : Event) : bool :=
  match e with
  | CallExtractTextFromFile _ | CallAnalyzeContent _ | ConsoleError _ _ => true
  | _ => false
  end.

(** The events of one invocation, oldest first. *)
Definition events (env : Env) : list Event :=
  trace (snd (handleAnalyze env (start initialUi))).

(** The state cells after an invocation that started in [s]. *)
Definition settled (env : Env) (s : UiState) : UiState :=
  ui (snd (handleAnalyze env (start s))).

(** The state cells right after the three resets. *)
Definition cleared : UiState :=
  {| analysisResult := None; isLoading := true; error := None |}.

(** At no instant both a result and an error. *)
Definition exclusive (s : UiState) : Prop :=
  analysisResult s = None \/ error s = None.

Definition is_analyze_call (e : Event) : bool :=
  match e with CallAnalyzeContent _ => true | _ => false end.

Definition is_extract_call (e : Event) : bool :=
  match e with CallExtractTextFromFile _ => true | _ => false end.

Definition is_loading_write (e : Event) : bool :=
  match e with SetIsLoading _ => true | _ => false end.

(** The calls made to the analysis client, and to the extractor. *)
Definition analyze_calls (evs : list Event) : list Event :=
  filter is_analyze_call evs.

Definition extract_calls (evs : list Event) : list Event :=
  filter is_extract_call evs.

(** Two invocations in flight at once: the events of both, each in its
    own order, in any interleaving. *)
Inductive Interleaved : list Event -> list Event -> list Event -> Prop :=
| Interleaved_nil : Interleaved [] [] []
| Interleaved_left e a b c :
    Interleaved a b c -> Interleaved (e :: a) b (e :: c)
| Interleaved_right e a b c :
    Interleaved a b c -> Interleaved a (e :: b) (e :: c).

End Orchestrator.

(* ===================================================================== *)
(** ** Shell: the [App] component *)
(* ===================================================================== *)

Module Shell.

Import Js Localization.

(** The two attributes of [document.documentElement] the effect writes. *)
Record Document := {
  lang : JsString;
  dir : JsString
}.

(** The string a [Language] value is. *)
Definition code (l : Language) : JsString :=
  match l with
  | en => lit "en"
  | ar => lit "ar"
  end.

Definition Language_eqb (a b : Language) : bool :=
  match a, b with
  | en, en | ar, ar => true
  | _, _ => false
  end.

(** The [language] cell of [App] and the document it renders into. *)
Record AppState := {
  language : Language;
  document : Document
}.

(** The body of the effect:
    [document.documentElement.lang = language;
     document.documentElement.dir = language === 'ar' ? 'rtl' : 'ltr'] *)
Definition languageEffect (l : Language) (d : Document) : Document :=
  {| lang := code l;
     dir := if Language_eqb l ar then lit "rtl" else lit "ltr" |}.

(** First render: [useState<Language>('ar')], then the effect runs. *)
Definition mount (d : Document) : AppState :=
  {| language := ar; document := languageEffect ar d |}.

(** [setLanguage(l)]: a state equal to the current one is dropped; a new
    one is committed, and the effect, whose dependency list is
    [[language]], runs again because its dependency changed. *)
Definition setLanguage (l : Language) (s : AppState) : AppState :=
  if Language_eqb l (language s) then s
  else {| language := l; document := languageEffect l (document s) |}.

(** The [t] the provider hands out in state [s]. *)
Definition t (s : AppState) (key : TranslationKey) : JsString :=
  Localization.t (language s) key.

(** The document attributes agree with the [language] cell. *)
Definition synced (s : AppState) : Prop :=
  document s = languageEffect (language s) (document s).

(** The state after a sequence of [setLanguage] calls on a mounted app. *)
Definition after_calls (d : Document) (calls : list Language) : AppState :=
  fold_left (fun s l => setLanguage l s) calls (mount d).

End Shell.

(* ===================================================================== *)
(** ** Sample inputs *)
(* ===================================================================== *)

Module Samples.

Import Js Localization Effects Orchestrator.

Definition sampleFile : File :=
  {| file_name := lit "notes.txt"; file_type := lit "text/plain"; file_bytes := [] |}.

Definition sampleResult : AnalysisResult :=
  {| summary := lit "A short summary."; keywords := [lit "alpha"; lit "beta"] |}.

(** Space, tab, line feed, no-break space, ideographic space. *)
Definition whitespaceOnly : JsString := [0x20; 0x09; 0x0A; 0xA0; 0x3000]%N.

(** A text with white space on both sides. *)
Definition paddedText : JsString := [0x20; 0x09]%N ++ lit "hello" ++ [0x0A]%N.

(** An extractor that answers with a given text, and one that fails
    with a given thrown value. *)
Definition extractorYields (text : JsString) (f : File) : Outcome JsString :=
  Returned text.

Definition extractorThrows (err : JsThrown) (f : File) : Outcome JsString :=
  Thrown err.

Definition unsupportedFile : JsThrown :=
  ErrorObject FileProcessingError (lit "Unsupported file type.").

(** An analysis client that answers, and one that is down. *)
Definition clientOk (text : JsString) : Outcome AnalysisResult :=
  Returned sampleResult.

Definition clientDown (text : JsString) : Outcome AnalysisResult :=
  Thrown (new_Error (lit "Failed to analyze content.")).

(** A render in text mode, Arabic being the active language. *)
Definition textEnv (txt : JsString)
  (client : JsString -> Outcome AnalysisResult) : Env :=
  {| t := Localization.t ar;
     inputMode := ModeText;
     inputText := txt;
     selectedFile := None;
     extractTextFromFile := fun _ => Returned [];
     analyzeContent := client |}.

(** A render in file mode, Arabic being the active language. *)
Definition fileEnv (sel : option File) (extractor : File -> Outcome JsString)
  (client : JsString -> Outcome AnalysisResult) : Env :=
  {| t := Localization.t ar;
     inputMode := ModeFile;
     inputText := [];
     selectedFile := sel;
     extractTextFromFile := extractor;
     analyzeContent := client |}.

(** A pair of tables in which Arabic lacks a key and has an empty entry. *)
Definition sparse (l : Language) : Table :=
  match l with
  | en => [ (appTitle, lit "Title"); (fileSize, lit "KB"); (summaryTitle, lit "Summary") ]
  | ar => [ (appTitle, lit "عنوان"); (fileSize, []) ]
  end.

End Samples.

(* ===================================================================== *)
(** ** Lifecycle: what an invocation calls, logs and leaves behind *)
(* ===================================================================== *)

Module Lifecycle.

Import Js Localization Effects Orchestrator.

(** Calls to the two collaborators. *)
Definition is_call (e : Event) : bool :=
  is_extract_call e || is_analyze_call e.

Definition calls (evs : list Event) : list Event := filter is_call evs.

(** What went to [console.error]. *)
Definition is_console (e : Event) : bool :=
  match e with ConsoleError _ _ => true | _ => false end.

Definition console_lines (evs : list Event) : list Event :=
  filter is_console evs.

(** Requests made one after the other on a freshly mounted component,
    each one started in the state the one before ended in. *)
Definition session (history : list Env) : UiState :=
  fold_left (fun u env => settled env u) history initialUi.

(** A cell that holds something. *)
Definition populated {A} (x : option A) : Prop := x <> None.

End Lifecycle.

(* ===================================================================== *)
(** ** Provider: the localization context between [App] and [AppContent] *)
(* ===================================================================== *)

Module Provider.

Import Js Localization Effects.

(** [interface LocalizationContextType] *)
Record LocalizationContextType := {
  language : Language;
  setLanguage : Language -> Shell.AppState -> Shell.AppState;
  t : TranslationKey -> JsString
}.

(** [useLocalization], given what [useContext(LocalizationContext)]
    returns: the value of the nearest provider, or [undefined] ([None])
    when there is none. *)
Definition useLocalization (context : option LocalizationContextType)
  : Outcome LocalizationContextType :=
  match context with
  | None =>
      Thrown (new_Error
                (lit "useLocalization must be used within a LocalizationProvider"))
  | Some c => Returned c
  end.

(** [value={{ language, setLanguage, t }}] in the render of [App]. *)
Definition providerValue (s : Shell.AppState) : LocalizationContextType :=
  {| language := Shell.language s;
     setLanguage := Shell.setLanguage;
     t := Shell.t s |}.

(** The closure environment of a render of [AppContent]: [t] comes from
    the context, the rest from the input cells and the collaborators. *)
Definition contentEnv (c : LocalizationContextType)
  (mode : Orchestrator.InputMode) (text : JsString) (sel : option File)
  (extractor : File -> Outcome JsString)
  (client : JsString -> Outcome AnalysisResult) : Orchestrator.Env :=
  {| Orchestrator.t := t c;
     Orchestrator.inputMode := mode;
     Orchestrator.inputText := text;
     Orchestrator.selectedFile := sel;
     Orchestrator.extractTextFromFile := extractor;
     Orchestrator.analyzeContent := client |}.

End Provider.

(* ===================================================================== *)
(** ** Facts about [trim] *)
(* ===================================================================== *)

Module JsFacts.

Import Js.

Lemma trimStart_blank (s : JsString) :
  blank s = true -> trimStart s = [].
Proof.
  induction s as [|c r IH]; simpl; [reflexivity|].
  intros H. apply andb_prop in H. destruct H as [Hc Hr].
  rewrite Hc. apply IH, Hr.
Qed.

Lemma trimStart_nil_blank (s : JsString) :
  trimStart s = [] -> blank s = true.
Proof.
  induction s as [|c r IH]; simpl; [reflexivity|].
  destruct (strippable c); [intros; apply IH; assumption | discriminate].
Qed.

(** What is left of [trimStart] is a suffix of the string. *)
Lemma trimStart_suffix (s : JsString) :
  exists p, s = p ++ trimStart s /\ blank p = true.
Proof.
  induction s as [|c r [p [Hp Hb]]]; simpl.
  - exists []. split; reflexivity.
  - destruct (strippable c) eqn:Hc.
    + exists (c :: p). simpl. rewrite Hc, Hb. split; [f_equal; exact Hp | reflexivity].
    + exists []. split; reflexivity.
Qed.

Lemma blank_app (a b : JsString) :
  blank (a ++ b) = blank a && blank b.
Proof. apply forallb_app. Qed.

Lemma blank_rev (s : JsString) : blank (rev s) = blank s.
Proof.
  induction s as [|c r IH]; simpl; [reflexivity|].
  rewrite blank_app, IH. simpl. rewrite andb_true_r. apply andb_comm.
Qed.

Lemma trimEnd_nil_iff (s : JsString) :
  trimEnd s = [] <-> blank s = true.
Proof.
  unfold trimEnd. split; intros H.
  - rewrite <- blank_rev. apply trimStart_nil_blank.
    rewrite <- (rev_involutive (trimStart (rev s))), H. reflexivity.
  - rewrite trimStart_blank; [reflexivity | rewrite blank_rev; exact H].
Qed.

(** The trimmed string is empty exactly when the string is blank. *)
Lemma trim_nil_iff (s : JsString) :
  trim s = [] <-> blank s = true.
Proof.
  unfold trim. rewrite trimEnd_nil_iff.
  destruct (trimStart_suffix s) as [p [Hp Hb]]. split; intros H.
  - rewrite Hp, blank_app, Hb, H. reflexivity.
  - rewrite Hp, blank_app, Hb in H. exact H.
Qed.

Lemma not_trim_blank (s : JsString) : not_trim s = blank s.
Proof.
  unfold not_trim. destruct (blank s) eqn:Hb.
  - apply trim_nil_iff in Hb. rewrite Hb. reflexivity.
  - destruct (trim s) eqn:Ht; [|reflexivity].
    apply trim_nil_iff in Ht. congruence.
Qed.

End JsFacts.

(* ===================================================================== *)
(** ** Facts about the effects *)
(* ===================================================================== *)

Module EffectsFacts.

Import Js Effects Effects.Notations.

Lemma bind_ret_l {A B} (a : A) (k : A -> M B) (w : World) :
  (x <- ret a ;; k x) w = k a w.
Proof. reflexivity. Qed.

Lemma bind_ret_r {A} (m : M A) (w : World) :
  (x <- m ;; ret x) w = m w.
Proof.
  unfold bind, ret. destruct (m w) as [[a|err] w']; reflexivity.
Qed.

Lemma bind_assoc {A B C} (m : M A) (k : A -> M B) (h : B -> M C) (w : World) :
  (y <- (x <- m ;; k x) ;; h y) w = (x <- m ;; y <- k x ;; h y) w.
Proof.
  unfold bind. destruct (m w) as [[a|err] w']; reflexivity.
Qed.

(** A throw skips the rest of the block and keeps the world. *)
Lemma bind_throw {A B} (err : JsThrown) (k : A -> M B) (w : World) :
  (x <- throw err ;; k x) w = (Thrown err, w).
Proof. reflexivity. Qed.

(** A [catch] clause is not entered when the block completes normally,
    and receives what the block threw otherwise. *)
Lemma try_catch_ret {A} (a : A) (h : JsThrown -> M A) (w : World) :
  try_catch (ret a) h w = (Returned a, w).
Proof. reflexivity. Qed.

Lemma try_catch_throw {A} (err : JsThrown) (h : JsThrown -> M A) (w : World) :
  try_catch (throw err) h w = h err w.
Proof. reflexivity. Qed.

(** A [finally] clause made of one setter runs on both completions of
    the block and leaves the completion as it is. *)
Lemma try_finally_emit {A} (m : M A) (e : Event) (w : World) :
  try_finally m (emit e) w
  = (fst (m w),
     {| ui := apply_event (ui (snd (m w))) e;
        trace := trace (snd (m w)) ++ [e] |}).
Proof.
  unfold try_finally, emit. destruct (m w) as [o w']. reflexivity.
Qed.

End EffectsFacts.

(* ===================================================================== *)
(** ** Facts about the lookup [t] *)
(* ===================================================================== *)

Module LocalizationFacts.

Import Js Localization Samples.

(** Every key has a non-empty string in both tables of the source. *)
Lemma translations_total (lang : Language) (key : TranslationKey) :
  exists s, get (translations lang) key = Some s /\ truthy s = true.
Proof.
  destruct lang, key; vm_compute; eexists; split; reflexivity.
Qed.

Lemma t_defined (lang : Language) (key : TranslationKey) :
  t_in translations lang key = Some (t lang key).
Proof.
  unfold t, t_in.
  destruct (translations_total lang key) as [s [Hs Ht]].
  rewrite Hs. simpl. rewrite Ht. reflexivity.
Qed.

(** With the tables of the source the fallback is never taken. *)
Lemma t_entry (lang : Language) (key : TranslationKey) :
  t lang key = entry lang key.
Proof.
  unfold t, t_in, entry.
  destruct (translations_total lang key) as [s [Hs Ht]].
  rewrite Hs. simpl. rewrite Ht. reflexivity.
Qed.

(** The two tables never agree on a key: a lookup tells the active
    language apart. *)
Lemma entry_en_ar_differ (key : TranslationKey) :
  entry en key <> entry ar key.
Proof.
  destruct key; vm_compute; discriminate.
Qed.

(** C8. For every key and every active language, [t] returns the
    string the table of the active language has for the key when that
    entry is truthy, and otherwise (no entry, or an empty one) what the
    English table has for the key.  In the tables of the source every
    key has a truthy entry in both languages, so there [t] returns the
    entry of the active language. *)
Theorem t_active_language_or_english (tr : Language -> Table)
  (lang : Language) (key : TranslationKey) :
  (forall s, get (tr lang) key = Some s -> truthy s = true ->
             t_in tr lang key = Some s)
  /\ (get (tr lang) key = None \/ get (tr lang) key = Some [] ->
      t_in tr lang key = get (tr en) key)
  /\ (exists s, get (translations lang) key = Some s /\ truthy s = true
                /\ t lang key = s).
Proof.
  split; [|split].
  - intros s Hs Ht. unfold t_in. rewrite Hs. simpl. rewrite Ht. reflexivity.
  - intros [H|H]; unfold t_in; rewrite H; reflexivity.
  - destruct (translations_total lang key) as [s [Hs Ht]].
    exists s. split; [exact Hs|]. split; [exact Ht|].
    rewrite t_entry. unfold entry. rewrite Hs. reflexivity.
Qed.

Lemma t_active_language_or_english_witness :
  (get (sparse ar) appTitle = Some (lit "عنوان")
   /\ t_in sparse ar appTitle = Some (lit "عنوان"))
  /\ (get (sparse ar) summaryTitle = None
      /\ t_in sparse ar summaryTitle = Some (lit "Summary"))
  /\ (get (sparse ar) fileSize = Some []
      /\ t_in sparse ar fileSize = Some (lit "KB")).
Proof.
  split; [|split].
  - split; [reflexivity|].
    apply (proj1 (t_active_language_or_english sparse ar appTitle));
      vm_compute; reflexivity.
  - split; [reflexivity|].
    rewrite (proj1 (proj2 (t_active_language_or_english sparse ar summaryTitle)));
      [reflexivity | left; reflexivity].
  - split; [reflexivity|].
    rewrite (proj1 (proj2 (t_active_language_or_english sparse ar fileSize)));
      [reflexivity | right; reflexivity].
Defined.

End LocalizationFacts.

(* ===================================================================== *)
(** ** Facts about the request lifecycle *)
(* ===================================================================== *)

Module OrchestratorFacts.

Import Js Localization Effects Effects.Notations Orchestrator JsFacts Samples.

(** *** Replaying events *)

Lemma replay_app (s : UiState) (a b : list Event) :
  replay s (a ++ b) = replay (replay s a) b.
Proof. unfold replay. apply fold_left_app. Qed.

Lemma replay_cons (s : UiState) (e : Event) (evs : list Event) :
  replay s (e :: evs) = replay (apply_event s e) evs.
Proof. reflexivity. Qed.

Lemma replay_quiet (s : UiState) (evs : list Event) :
  forallb quiet evs = true -> replay s evs = s.
Proof.
  revert s. induction evs as [|e r IH]; intros s H; [reflexivity|].
  simpl in H. apply andb_prop in H. destruct H as [He Hr].
  rewrite replay_cons, IH by exact Hr.
  destruct e; simpl in He; try discriminate; reflexivity.
Qed.

Lemma states_along_app (s : UiState) (a b : list Event) :
  states_along s (a ++ b) = states_along s a ++ states_along (replay s a) b.
Proof.
  revert s. induction a as [|e r IH]; intros s; [reflexivity|].
  simpl. rewrite IH. reflexivity.
Qed.

Lemma states_along_quiet (s : UiState) (evs : list Event) :
  forallb quiet evs = true -> states_along s evs = repeat s (List.length evs).
Proof.
  revert s. induction evs as [|e r IH]; intros s H; [reflexivity|].
  simpl in H. apply andb_prop in H. destruct H as [He Hr].
  assert (apply_event s e = s) as Hs
    by (destruct e; simpl in He; try discriminate; reflexivity).
  simpl. rewrite Hs, IH by exact Hr. reflexivity.
Qed.

Lemma Forall_repeat {A} (P : A -> Prop) (x : A) (n : nat) :
  P x -> Forall P (repeat x n).
Proof. intros H. induction n; simpl; constructor; assumption. Qed.

(** *** Case analysis of one invocation *)

(** Splits an invocation along the branches of the source: input mode,
    blank test, selected file, how the extractor settles, the class of
    what it threw, and how the analysis client settles. *)
Ltac branches env :=
  destruct env as [tr mode text sel extract analyze];
  unfold completion in *;
  unfold analysis_outcome, analysis_events, events, settled in *;
  unfold handleAnalyze, analysis, onAnalysisFailed, surfaced in *;
  unfold getTextToAnalyze in *;
  cbn [t inputMode inputText selectedFile extractTextFromFile analyzeContent] in *;
  destruct mode;
  [ destruct (not_trim text) eqn:Hblank
  | destruct sel as [file|];
    [ destruct (extract file) as [extracted|thrown] eqn:Hextract;
      [ destruct (not_trim extracted) eqn:Hblank
      | destruct (instanceof_FileProcessingError thrown) eqn:Hclass ]
    | ] ].

Ltac settle_client analyze :=
  repeat match goal with
  | |- context [analyze ?x] =>
      let r := fresh "result" in
      let e := fresh "err" in
      let H := fresh "Hanalyze" in
      destruct (analyze x) as [r|e] eqn:H; [|destruct e]
  end.

Ltac crunch :=
  unfold bind, try_finally, try_catch, throw, ret, await, setIsLoading, setError,
    setAnalysisResult, console_error, emit, start in *;
  cbn [fst snd ui trace app apply_event analysisResult isLoading error
       message_text new_Error instanceof_FileProcessingError replay fold_left]
    in *.

Ltac by_class :=
  repeat match goal with
  | |- context [match ?e with ErrorObject _ _ => _ | NonError _ => _ end] =>
      is_var e; destruct e
  end.

Ltac known :=
  repeat match goal with
  | H : ?l = _ |- context [?l] => rewrite H
  end.

Ltac run env analyze :=
  branches env; crunch; known; crunch; known; crunch; try reflexivity;
  settle_client analyze; crunch; by_class; crunch; try reflexivity.

(** The text is resolved, and with which events, whatever the state. *)
Lemma analysis_any_state (env : Env) (s : UiState) :
  analysis env (start s)
  = (analysis_outcome env, {| ui := s; trace := analysis_events env |}).
Proof.
  run env analyze.
Qed.

Lemma analysis_events_quiet (env : Env) :
  forallb quiet (analysis_events env) = true.
Proof.
  run env analyze.
Qed.

(** The events of an invocation: the three resets, the analysis, the
    publication of its outcome, and the release of the loading flag. *)
Lemma events_shape (env : Env) :
  events env
  = [SetIsLoading true; SetError None; SetAnalysisResult None]
    ++ analysis_events env ++ completion env ++ [SetIsLoading false].
Proof.
  run env analyze.
Qed.

(** An invocation always completes normally; its events do not depend
    on the state it started in, and its final state is their replay. *)
Lemma handleAnalyze_run (env : Env) (s : UiState) :
  handleAnalyze env (start s)
  = (Returned tt, {| ui := replay s (events env); trace := events env |}).
Proof.
  run env analyze.
Qed.

Lemma settled_replay (env : Env) (s : UiState) :
  settled env s = replay s (events env).
Proof. unfold settled. rewrite handleAnalyze_run. reflexivity. Qed.

Lemma replay_resets (s : UiState) :
  replay s [SetIsLoading true; SetError None; SetAnalysisResult None] = cleared.
Proof. reflexivity. Qed.

(** The final state of an invocation, by how its analysis ended. *)
Lemma settled_by_outcome (env : Env) (s : UiState) :
  settled env s
  = match analysis_outcome env with
    | Returned result =>
        {| analysisResult := Some result; isLoading := false; error := None |}
    | Thrown err =>
        {| analysisResult := None; isLoading := false;
           error := Some (surfaced env err) |}
    end.
Proof.
  rewrite settled_replay, events_shape.
  rewrite replay_app, replay_resets, replay_app.
  rewrite (replay_quiet _ _ (analysis_events_quiet env)).
  unfold completion. destruct (analysis_outcome env); reflexivity.
Qed.

(** The states an invocation goes through: those of the resets, then
    [cleared] for as long as the analysis runs, then the publication and
    the release. *)
Lemma states_of_invocation (env : Env) (s : UiState) :
  states_along s (events env)
  = states_along s [SetIsLoading true; SetError None; SetAnalysisResult None]
    ++ repeat cleared (List.length (analysis_events env))
    ++ states_along cleared (completion env)
    ++ [settled env s].
Proof.
  rewrite settled_by_outcome, events_shape.
  rewrite states_along_app, replay_resets, states_along_app.
  rewrite (states_along_quiet _ _ (analysis_events_quiet env)).
  rewrite (replay_quiet _ _ (analysis_events_quiet env)).
  rewrite states_along_app.
  unfold completion. destruct (analysis_outcome env); reflexivity.
Qed.

(** *** The calls an invocation makes *)

Lemma calls_of_invocation (env : Env) :
  analyze_calls (events env) = analyze_calls (analysis_events env)
  /\ extract_calls (events env) = extract_calls (analysis_events env).
Proof.
  rewrite events_shape. unfold analyze_calls, extract_calls.
  rewrite !filter_app. unfold completion.
  destruct (analysis_outcome env); simpl; rewrite !app_nil_r; split; reflexivity.
Qed.

(** *** How the text is resolved, branch by branch *)

Lemma resolve_blank_text (env : Env) (s : UiState) :
  inputMode env = ModeText -> blank (inputText env) = true ->
  getTextToAnalyze env (start s)
  = (Thrown (new_Error (t env errorNoText)), start s).
Proof.
  intros Hmode Hblank. unfold getTextToAnalyze.
  rewrite Hmode, not_trim_blank, Hblank. reflexivity.
Qed.

Lemma resolve_text (env : Env) (s : UiState) :
  inputMode env = ModeText -> blank (inputText env) = false ->
  getTextToAnalyze env (start s) = (Returned (inputText env), start s).
Proof.
  intros Hmode Hblank. unfold getTextToAnalyze.
  rewrite Hmode, not_trim_blank, Hblank. reflexivity.
Qed.

Lemma resolve_no_file (env : Env) (s : UiState) :
  inputMode env = ModeFile -> selectedFile env = None ->
  getTextToAnalyze env (start s)
  = (Thrown (new_Error (t env errorNoFile)), start s).
Proof.
  intros Hmode Hsel. unfold getTextToAnalyze.
  rewrite Hmode, Hsel. reflexivity.
Qed.

Lemma resolve_blank_extraction (env : Env) (s : UiState) file extracted :
  inputMode env = ModeFile -> selectedFile env = Some file ->
  extractTextFromFile env file = Returned extracted ->
  blank extracted = true ->
  getTextToAnalyze env (start s)
  = (Thrown (new_Error (t env errorNoTextExtracted)),
     {| ui := s; trace := [CallExtractTextFromFile file] |}).
Proof.
  intros Hmode Hsel Hextract Hblank. unfold getTextToAnalyze.
  rewrite Hmode, Hsel. unfold try_catch, bind, await. rewrite Hextract.
  rewrite not_trim_blank, Hblank. reflexivity.
Qed.

Lemma resolve_extraction (env : Env) (s : UiState) file extracted :
  inputMode env = ModeFile -> selectedFile env = Some file ->
  extractTextFromFile env file = Returned extracted ->
  blank extracted = false ->
  getTextToAnalyze env (start s)
  = (Returned extracted, {| ui := s; trace := [CallExtractTextFromFile file] |}).
Proof.
  intros Hmode Hsel Hextract Hblank. unfold getTextToAnalyze.
  rewrite Hmode, Hsel. unfold try_catch, bind, await. rewrite Hextract.
  rewrite not_trim_blank, Hblank. reflexivity.
Qed.

Lemma resolve_file_processing_error (env : Env) (s : UiState) file err :
  inputMode env = ModeFile -> selectedFile env = Some file ->
  extractTextFromFile env file = Thrown err ->
  instanceof_FileProcessingError err = true ->
  getTextToAnalyze env (start s)
  = (Thrown (new_Error (t env errorFileRead)),
     {| ui := s;
        trace := [CallExtractTextFromFile file;
                  ConsoleError (lit "File processing error:") err] |}).
Proof.
  intros Hmode Hsel Hextract Hclass. unfold getTextToAnalyze.
  rewrite Hmode, Hsel. unfold try_catch, bind, await. rewrite Hextract.
  rewrite Hclass. reflexivity.
Qed.

Lemma resolve_other_error (env : Env) (s : UiState) file err :
  inputMode env = ModeFile -> selectedFile env = Some file ->
  extractTextFromFile env file = Thrown err ->
  instanceof_FileProcessingError err = false ->
  getTextToAnalyze env (start s)
  = (Thrown err, {| ui := s; trace := [CallExtractTextFromFile file] |}).
Proof.
  intros Hmode Hsel Hextract Hclass. unfold getTextToAnalyze.
  rewrite Hmode, Hsel. unfold try_catch, bind, await. rewrite Hextract.
  rewrite Hclass. reflexivity.
Qed.

(** When the text is not resolved the analysis ends there: the client
    is not called. *)
Lemma analysis_of_unresolved (env : Env) err w :
  getTextToAnalyze env (start initialUi) = (Thrown err, w) ->
  analysis_outcome env = Thrown err /\ analysis_events env = trace w.
Proof.
  intros H. unfold analysis_outcome, analysis_events, analysis, bind.
  rewrite H. split; reflexivity.
Qed.

(** When it is, the client is called once, with the resolved text. *)
Lemma analysis_of_resolved (env : Env) text w :
  getTextToAnalyze env (start initialUi) = (Returned text, w) ->
  analysis_outcome env = analyzeContent env text
  /\ analysis_events env = trace w ++ [CallAnalyzeContent text].
Proof.
  intros H. unfold analysis_outcome, analysis_events, analysis, bind, await.
  rewrite H. split; reflexivity.
Qed.

(** What an invocation ends with when the text is not resolved. *)
Lemma unresolved_invocation (env : Env) (s : UiState) err w :
  getTextToAnalyze env (start initialUi) = (Thrown err, w) ->
  settled env s
  = {| analysisResult := None; isLoading := false;
       error := Some (surfaced env err) |}
  /\ analyze_calls (events env) = analyze_calls (trace w)
  /\ extract_calls (events env) = extract_calls (trace w).
Proof.
  intros H. destruct (analysis_of_unresolved env H) as [Ho He].
  destruct (calls_of_invocation env) as [Ha Hx].
  rewrite settled_by_outcome, Ho, Ha, Hx, He. repeat split.
Qed.

(** *** The properties of the lifecycle *)

(** C1. Every invocation of [handleAnalyze] completes; if its analysis
    returned a result, the result cell holds it and the error cell is
    null; if an error reached the top, the error cell holds its text and
    the result cell is null.  Started from a state that has not both,
    the cells have not both at any instant of the invocation. *)
Theorem result_and_error_exclusive (env : Env) (s : UiState) :
  handleAnalyze env (start s)
  = (Returned tt, {| ui := settled env s; trace := events env |})
  /\ match analysis_outcome env with
     | Returned result =>
         analysisResult (settled env s) = Some result
         /\ error (settled env s) = None
     | Thrown err =>
         analysisResult (settled env s) = None
         /\ error (settled env s) = Some (surfaced env err)
     end
  /\ (exclusive s -> Forall exclusive (states_along s (events env))).
Proof.
  split; [|split].
  - rewrite handleAnalyze_run, settled_replay. reflexivity.
  - rewrite settled_by_outcome.
    destruct (analysis_outcome env); split; reflexivity.
  - intros Hs. rewrite states_of_invocation.
    apply Forall_app; split; [|apply Forall_app; split; [|apply Forall_app; split]].
    + simpl. repeat apply Forall_cons; try apply Forall_nil;
        unfold exclusive in *; simpl; tauto.
    + apply Forall_repeat. left. reflexivity.
    + unfold completion. destruct (analysis_outcome env); simpl;
        repeat apply Forall_cons; try apply Forall_nil;
        unfold exclusive; simpl; auto.
    + apply Forall_cons; [|apply Forall_nil]. rewrite settled_by_outcome.
      destruct (analysis_outcome env); [right | left]; reflexivity.
Qed.

Lemma result_and_error_exclusive_witness :
  exclusive initialUi
  /\ analysis_outcome (textEnv (lit "hello") clientOk) = Returned sampleResult
  /\ analysisResult (settled (textEnv (lit "hello") clientOk) initialUi)
     = Some sampleResult
  /\ error (settled (textEnv (lit "hello") clientOk) initialUi) = None
  /\ Forall exclusive
       (states_along initialUi (events (textEnv (lit "hello") clientOk))).
Proof.
  assert (exclusive initialUi) as Hidle by (left; reflexivity).
  assert (analysis_outcome (textEnv (lit "hello") clientOk) = Returned sampleResult)
    as Hok by reflexivity.
  pose proof (result_and_error_exclusive (textEnv (lit "hello") clientOk) initialUi)
    as [_ [Hcells Hall]].
  rewrite Hok in Hcells. destruct Hcells as [Hres Herr].
  split; [exact Hidle|]. split; [exact Hok|]. split; [exact Hres|].
  split; [exact Herr|]. exact (Hall Hidle).
Defined.

(** C2. Every invocation of [handleAnalyze] completes, success or
    failure.  Its first event sets the loading flag and its last event
    clears it, with no other write to the flag in between; so the flag
    is true in every state strictly between the start and the end of the
    invocation, and false in the state the invocation ends in. *)
Theorem loading_flag_scoped (env : Env) (s : UiState) :
  handleAnalyze env (start s)
  = (Returned tt, {| ui := settled env s; trace := events env |})
  /\ (exists mid,
        events env = SetIsLoading true :: mid ++ [SetIsLoading false]
        /\ forallb (fun e => negb (is_loading_write e)) mid = true)
  /\ (exists between,
        states_along s (events env) = between ++ [settled env s]
        /\ between <> []
        /\ Forall (fun u => isLoading u = true) between)
  /\ isLoading (settled env s) = false.
Proof.
  split; [|split; [|split]].
  - rewrite handleAnalyze_run, settled_replay. reflexivity.
  - exists ([SetError None; SetAnalysisResult None]
            ++ analysis_events env ++ completion env).
    split.
    + rewrite events_shape. simpl. rewrite <- !app_assoc. reflexivity.
    + rewrite !forallb_app. simpl.
      assert (forallb (fun e => negb (is_loading_write e)) (analysis_events env)
              = true) as Hq.
      { pose proof (analysis_events_quiet env) as Hq.
        rewrite forallb_forall in *. intros e He. specialize (Hq e He).
        destruct e; simpl in *; congruence. }
      rewrite Hq. unfold completion.
      destruct (analysis_outcome env); reflexivity.
  - exists (states_along s [SetIsLoading true; SetError None; SetAnalysisResult None]
            ++ repeat cleared (List.length (analysis_events env))
            ++ states_along cleared (completion env)).
    split; [|split].
    + rewrite states_of_invocation, <- !app_assoc. reflexivity.
    + simpl. discriminate.
    + apply Forall_app; split; [|apply Forall_app; split].
      * simpl. repeat apply Forall_cons; try apply Forall_nil; reflexivity.
      * apply Forall_repeat. reflexivity.
      * unfold completion. destruct (analysis_outcome env); simpl;
          repeat apply Forall_cons; try apply Forall_nil; reflexivity.
  - rewrite settled_by_outcome. destruct (analysis_outcome env); reflexivity.
Qed.

(** Between invocations the flag is false: it is so when the component
    mounts and after every invocation of a session. *)
Lemma idle_between_invocations (history : list Env) :
  isLoading (fold_left (fun u env => settled env u) history initialUi) = false.
Proof.
  induction history as [|env r IH] using rev_ind; [reflexivity|].
  rewrite fold_left_app. simpl. rewrite settled_by_outcome.
  destruct (analysis_outcome env); reflexivity.
Qed.



(** C4. In text mode, a blank input (empty, or white space and line
    terminators only) is rejected with the localized [errorNoText]
    message: the error cell ends up holding it, no result is published,
    and the analysis client is not called. *)
Theorem blank_text_rejected (env : Env) (s : UiState) :
  inputMode env = ModeText ->
  blank (inputText env) = true ->
  fst (getTextToAnalyze env (start s)) = Thrown (new_Error (t env errorNoText))
  /\ error (settled env s) = Some (t env errorNoText)
  /\ analysisResult (settled env s) = None
  /\ analyze_calls (events env) = [].
Proof.
  intros Hmode Hblank.
  destruct (unresolved_invocation env s (resolve_blank_text env initialUi Hmode Hblank))
    as [Hend [Hcalls _]].
  rewrite (resolve_blank_text env s Hmode Hblank), Hend, Hcalls.
  repeat split.
Qed.

Lemma blank_text_rejected_witness :
  inputMode (textEnv whitespaceOnly clientOk) = ModeText
  /\ blank (inputText (textEnv whitespaceOnly clientOk)) = true
  /\ error (settled (textEnv whitespaceOnly clientOk) initialUi)
     = Some (entry ar errorNoText)
  /\ analyze_calls (events (textEnv whitespaceOnly clientOk)) = [].
Proof.
  destruct (@blank_text_rejected (textEnv whitespaceOnly clientOk) initialUi)
    as [_ [Herr [_ Hcalls]]]; [reflexivity | vm_compute; reflexivity |].
  split; [reflexivity|]. split; [vm_compute; reflexivity|].
  split; [rewrite Herr; simpl; rewrite LocalizationFacts.t_entry; reflexivity|].
  exact Hcalls.
Defined.

(** C5. In file mode with no file selected, the request is rejected with
    the localized [errorNoFile] message, and neither the extractor nor
    the analysis client is called. *)
Theorem missing_file_rejected (env : Env) (s : UiState) :
  inputMode env = ModeFile ->
  selectedFile env = None ->
  fst (getTextToAnalyze env (start s)) = Thrown (new_Error (t env errorNoFile))
  /\ error (settled env s) = Some (t env errorNoFile)
  /\ analysisResult (settled env s) = None
  /\ extract_calls (events env) = []
  /\ analyze_calls (events env) = [].
Proof.
  intros Hmode Hsel.
  destruct (unresolved_invocation env s (resolve_no_file env initialUi Hmode Hsel))
    as [Hend [Hcalls Hextracts]].
  rewrite (resolve_no_file env s Hmode Hsel), Hend, Hcalls, Hextracts.
  repeat split.
Qed.

Lemma missing_file_rejected_witness :
  inputMode (fileEnv None (extractorYields (lit "text")) clientOk) = ModeFile
  /\ selectedFile (fileEnv None (extractorYields (lit "text")) clientOk) = None
  /\ error (settled (fileEnv None (extractorYields (lit "text")) clientOk) initialUi)
     = Some (entry ar errorNoFile)
  /\ extract_calls (events (fileEnv None (extractorYields (lit "text")) clientOk)) = [].
Proof.
  destruct (@missing_file_rejected
              (fileEnv None (extractorYields (lit "text")) clientOk) initialUi)
    as [_ [Herr [_ [Hextracts _]]]]; [reflexivity | reflexivity |].
  split; [reflexivity|]. split; [reflexivity|].
  split; [rewrite Herr; simpl; rewrite LocalizationFacts.t_entry; reflexivity|].
  exact Hextracts.
Defined.

(** C6. When the extractor fails with a [FileProcessingError], the text
    resolution fails with a new error whose message is the localized
    [errorFileRead] string, and that string is what the error cell ends
    up holding, whatever the message of the extractor's error was.  When
    the extractor fails with anything else, the very value it threw is
    what the text resolution throws and what reaches the top of the
    lifecycle.  In both cases the analysis client is not called. *)
Theorem extractor_failure_surfaced (env : Env) (s : UiState)
  (file : File) (err : JsThrown) :
  inputMode env = ModeFile ->
  selectedFile env = Some file ->
  extractTextFromFile env file = Thrown err ->
  (instanceof_FileProcessingError err = true ->
     fst (getTextToAnalyze env (start s)) = Thrown (new_Error (t env errorFileRead))
     /\ error (settled env s) = Some (t env errorFileRead))
  /\ (instanceof_FileProcessingError err = false ->
     fst (getTextToAnalyze env (start s)) = Thrown err
     /\ analysis_outcome env = Thrown err)
  /\ analyze_calls (events env) = [].
Proof.
  intros Hmode Hsel Hextract. split; [|split].
  - intros Hclass.
    pose proof (resolve_file_processing_error env initialUi Hmode Hsel Hextract Hclass)
      as Hres.
    destruct (unresolved_invocation env s Hres) as [Hend _].
    rewrite (resolve_file_processing_error env s Hmode Hsel Hextract Hclass), Hend.
    split; reflexivity.
  - intros Hclass.
    pose proof (resolve_other_error env initialUi Hmode Hsel Hextract Hclass) as Hres.
    destruct (analysis_of_unresolved env Hres) as [Hout _].
    rewrite (resolve_other_error env s Hmode Hsel Hextract Hclass), Hout.
    split; reflexivity.
  - destruct (instanceof_FileProcessingError err) eqn:Hclass.
    + pose proof (resolve_file_processing_error env initialUi Hmode Hsel Hextract Hclass)
        as Hres.
      destruct (unresolved_invocation env s Hres) as [_ [Hcalls _]].
      rewrite Hcalls. reflexivity.
    + pose proof (resolve_other_error env initialUi Hmode Hsel Hextract Hclass) as Hres.
      destruct (unresolved_invocation env s Hres) as [_ [Hcalls _]].
      rewrite Hcalls. reflexivity.
Qed.

Lemma extractor_failure_surfaced_witness :
  extractTextFromFile
    (fileEnv (Some sampleFile) (extractorThrows unsupportedFile) clientOk) sampleFile
  = Thrown unsupportedFile
  /\ instanceof_FileProcessingError unsupportedFile = true
  /\ error (settled (fileEnv (Some sampleFile) (extractorThrows unsupportedFile) clientOk)
              initialUi)
     = Some (entry ar errorFileRead).
Proof.
  destruct (@extractor_failure_surfaced
              (fileEnv (Some sampleFile) (extractorThrows unsupportedFile) clientOk)
              initialUi sampleFile unsupportedFile)
    as [Hfpe _]; [reflexivity | reflexivity | reflexivity |].
  destruct (Hfpe eq_refl) as [_ Herr].
  split; [reflexivity|]. split; [reflexivity|].
  rewrite Herr. simpl. rewrite LocalizationFacts.t_entry. reflexivity.
Defined.

(** C7. In file mode, when the extractor answers with a blank text
    (empty, or white space and line terminators only), the request is
    rejected with the localized [errorNoTextExtracted] message, and the
    analysis client is not called. *)
Theorem blank_extraction_rejected (env : Env) (s : UiState)
  (file : File) (extracted : JsString) :
  inputMode env = ModeFile ->
  selectedFile env = Some file ->
  extractTextFromFile env file = Returned extracted ->
  blank extracted = true ->
  fst (getTextToAnalyze env (start s))
  = Thrown (new_Error (t env errorNoTextExtracted))
  /\ error (settled env s) = Some (t env errorNoTextExtracted)
  /\ analysisResult (settled env s) = None
  /\ analyze_calls (events env) = [].
Proof.
  intros Hmode Hsel Hextract Hblank.
  pose proof (resolve_blank_extraction env initialUi Hmode Hsel Hextract Hblank)
    as Hres.
  destruct (unresolved_invocation env s Hres) as [Hend [Hcalls _]].
  rewrite (resolve_blank_extraction env s Hmode Hsel Hextract Hblank), Hend, Hcalls.
  repeat split.
Qed.

Lemma blank_extraction_rejected_witness :
  extractTextFromFile
    (fileEnv (Some sampleFile) (extractorYields whitespaceOnly) clientOk) sampleFile
  = Returned whitespaceOnly
  /\ blank whitespaceOnly = true
  /\ error (settled (fileEnv (Some sampleFile) (extractorYields whitespaceOnly) clientOk)
              initialUi)
     = Some (entry ar errorNoTextExtracted)
  /\ analyze_calls
       (events (fileEnv (Some sampleFile) (extractorYields whitespaceOnly) clientOk))
     = [].
Proof.
  destruct (@blank_extraction_rejected
              (fileEnv (Some sampleFile) (extractorYields whitespaceOnly) clientOk)
              initialUi sampleFile whitespaceOnly)
    as [_ [Herr [_ Hcalls]]];
    [reflexivity | reflexivity | reflexivity | vm_compute; reflexivity |].
  split; [reflexivity|]. split; [vm_compute; reflexivity|].
  split; [rewrite Herr; simpl; rewrite LocalizationFacts.t_entry; reflexivity|].
  exact Hcalls.
Defined.

(** C10. In text mode with an input that is not blank, the text
    resolution returns the input as it is, and the analysis client is
    called exactly once, with that very input: white space at its ends
    is kept. *)
Theorem text_sent_untrimmed (env : Env) (s : UiState) :
  inputMode env = ModeText ->
  blank (inputText env) = false ->
  fst (getTextToAnalyze env (start s)) = Returned (inputText env)
  /\ analyze_calls (events env) = [CallAnalyzeContent (inputText env)]
  /\ analysis_outcome env = analyzeContent env (inputText env).
Proof.
  intros Hmode Hblank.
  destruct (analysis_of_resolved env (resolve_text env initialUi Hmode Hblank))
    as [Hout Hev].
  destruct (calls_of_invocation env) as [Hcalls _].
  rewrite (resolve_text env s Hmode Hblank), Hcalls, Hev, Hout.
  repeat split.
Qed.

Lemma text_sent_untrimmed_witness :
  inputMode (textEnv paddedText clientOk) = ModeText
  /\ blank (inputText (textEnv paddedText clientOk)) = false
  /\ trim paddedText <> paddedText
  /\ analyze_calls (events (textEnv paddedText clientOk))
     = [CallAnalyzeContent paddedText].
Proof.
  destruct (@text_sent_untrimmed (textEnv paddedText clientOk) initialUi)
    as [_ [Hcalls _]]; [reflexivity | vm_compute; reflexivity |].
  split; [reflexivity|]. split; [vm_compute; reflexivity|].
  split; [vm_compute; discriminate|]. exact Hcalls.
Defined.

(** *** Remarks on the edges of the lifecycle *)

(** An [Error] whose message is the empty string is published as the
    empty string: the fallback is for thrown values that are no [Error]. *)
Remark empty_message_published (env : Env) (s : UiState) (cls : ErrorClass) :
  analysis_outcome env = Thrown (ErrorObject cls []) ->
  error (settled env s) = Some [].
Proof.
  intros H. rewrite settled_by_outcome, H. reflexivity.
Qed.

(** A text-mode request never calls the extractor. *)
Remark text_mode_ignores_file (env : Env) :
  inputMode env = ModeText -> extract_calls (events env) = [].
Proof.
  intros Hmode. destruct (calls_of_invocation env) as [_ Hx]. rewrite Hx.
  destruct (blank (inputText env)) eqn:Hblank.
  - destruct (analysis_of_unresolved env (resolve_blank_text env initialUi Hmode Hblank))
      as [_ He].
    rewrite He. reflexivity.
  - destruct (analysis_of_resolved env (resolve_text env initialUi Hmode Hblank))
      as [_ He].
    rewrite He. reflexivity.
Qed.

(** The lifecycle has no guard of its own against a second invocation
    while one is in flight; the exclusion of result and error rests on
    the one-request-at-a-time contract.  Here a first request is sent,
    a second one is sent before the first one settles, the first one
    succeeds and then the second one fails: both cells end up set. *)
Remark overlapping_invocations_not_exclusive :
  exists evs,
    Interleaved (events (textEnv (lit "first") clientOk))
                (events (textEnv (lit "second") clientDown)) evs
    /\ ~ exclusive (replay initialUi evs).
Proof.
  exists ([SetIsLoading true; SetError None; SetAnalysisResult None;
           CallAnalyzeContent (lit "first")]
          ++ [SetIsLoading true; SetError None; SetAnalysisResult None;
              CallAnalyzeContent (lit "second")]
          ++ [SetAnalysisResult (Some sampleResult); SetIsLoading false]
          ++ [ConsoleError (lit "Analysis failed:")
                (new_Error (lit "Failed to analyze content."))
              ; SetError (Some (lit "Failed to analyze content."))
              ; SetIsLoading false]).
  split.
  - vm_compute.
    do 4 apply Interleaved_left. do 4 apply Interleaved_right.
    do 2 apply Interleaved_left. do 3 apply Interleaved_right.
    apply Interleaved_nil.
  - vm_compute. intros [H|H]; discriminate.
Qed.

End OrchestratorFacts.



(* ===================================================================== *)
(** ** Facts about the language switch *)
(* ===================================================================== *)

Module ShellFacts.

Import Js Localization Shell LocalizationFacts.

Lemma Language_eqb_eq (a b : Language) : Language_eqb a b = true <-> a = b.
Proof. destruct a, b; simpl; split; congruence. Qed.

Lemma languageEffect_synced (l : Language) (d : Document) :
  synced {| language := l; document := languageEffect l d |}.
Proof. reflexivity. Qed.

Lemma setLanguage_synced (l : Language) (s : AppState) :
  synced s -> synced (setLanguage l s).
Proof.
  intros Hs. unfold setLanguage.
  destruct (Language_eqb l (language s)); [exact Hs | apply languageEffect_synced].
Qed.

(** Once mounted, the document attributes follow the language cell. *)
Lemma mounted_synced (d : Document) (calls : list Language) :
  synced (after_calls d calls).
Proof.
  unfold after_calls.
  induction calls as [|l r IH] using rev_ind; [apply languageEffect_synced|].
  rewrite fold_left_app. apply setLanguage_synced, IH.
Qed.

(** C9. After [setLanguage l], on an app whose document attributes
    follow the language cell (as they do from the mount on) or whose
    language differs from [l], the language cell is [l], the document
    [lang] attribute is the string of [l], the [dir] attribute is [rtl]
    for Arabic and [ltr] otherwise, and [t] looks keys up in the table
    of [l]. *)
Theorem setLanguage_updates_document (s : AppState) (l : Language) :
  synced s \/ language s <> l ->
  language (setLanguage l s) = l
  /\ lang (document (setLanguage l s)) = code l
  /\ dir (document (setLanguage l s))
     = match l with
       | ar => lit "rtl"
       | en => lit "ltr"
       end
  /\ (forall key, Shell.t (setLanguage l s) key = entry l key).
Proof.
  intros H. unfold setLanguage.
  destruct (Language_eqb l (language s)) eqn:Heq.
  - apply Language_eqb_eq in Heq. destruct H as [Hs|Hne]; [|congruence].
    unfold synced in Hs. unfold Shell.t. rewrite Hs, <- Heq.
    cbn [languageEffect lang dir].
    split; [reflexivity|]. split; [reflexivity|].
    split; [destruct l; reflexivity|].
    intros key. apply t_entry.
  - unfold Shell.t. cbn [language document languageEffect lang dir].
    split; [reflexivity|]. split; [reflexivity|].
    split; [destruct l; reflexivity|].
    intros key. apply t_entry.
Qed.

Lemma setLanguage_updates_document_witness :
  language (mount {| lang := lit "en"; dir := lit "ltr" |}) <> en
  /\ lang (document (setLanguage en (mount {| lang := lit "en"; dir := lit "ltr" |})))
     = lit "en"
  /\ dir (document (setLanguage en (mount {| lang := lit "en"; dir := lit "ltr" |})))
     = lit "ltr"
  /\ Shell.t (setLanguage en (mount {| lang := lit "en"; dir := lit "ltr" |}))
       errorNoText
     = lit "Please enter some text to analyze.".
Proof.
  assert (language (mount {| lang := lit "en"; dir := lit "ltr" |}) <> en) as Hne
    by (simpl; discriminate).
  destruct (@setLanguage_updates_document
              (mount {| lang := lit "en"; dir := lit "ltr" |}) en (or_intror Hne))
    as [_ [Hlang [Hdir Ht]]].
  split; [exact Hne|]. split; [exact Hlang|]. split; [exact Hdir|].
  rewrite Ht. vm_compute. reflexivity.
Defined.

End ShellFacts.

(* ===================================================================== *)
(** ** Facts about calls, logging and sessions *)
(* ===================================================================== *)

Module LifecycleFacts.

Import Js Localization Effects Effects.Notations Orchestrator Lifecycle.
Import JsFacts OrchestratorFacts Samples.

(** *** The analysis, path by path *)

(** How the analysis ends, read off the inputs. *)
Lemma analysis_outcome_table (env : Env) :
  analysis_outcome env
  = match inputMode env with
    | ModeText =>
        if blank (inputText env)
        then Thrown (new_Error (t env errorNoText))
        else analyzeContent env (inputText env)
    | ModeFile =>
        match selectedFile env with
        | None => Thrown (new_Error (t env errorNoFile))
        | Some file =>
            match extractTextFromFile env file with
            | Returned extracted =>
                if blank extracted
                then Thrown (new_Error (t env errorNoTextExtracted))
                else analyzeContent env extracted
            | Thrown err =>
                if instanceof_FileProcessingError err
                then Thrown (new_Error (t env errorFileRead))
                else Thrown err
            end
        end
    end.
Proof.
  destruct (inputMode env) eqn:Hmode.
  - destruct (blank (inputText env)) eqn:Hblank.
    + apply (analysis_of_unresolved env (resolve_blank_text env initialUi Hmode Hblank)).
    + apply (analysis_of_resolved env (resolve_text env initialUi Hmode Hblank)).
  - destruct (selectedFile env) as [file|] eqn:Hsel.
    + destruct (extractTextFromFile env file) as [extracted|err] eqn:Hextract.
      * destruct (blank extracted) eqn:Hblank.
        -- apply (analysis_of_unresolved env
                    (resolve_blank_extraction env initialUi Hmode Hsel Hextract Hblank)).
        -- apply (analysis_of_resolved env
                    (resolve_extraction env initialUi Hmode Hsel Hextract Hblank)).
      * destruct (instanceof_FileProcessingError err) eqn:Hclass.
        -- apply (analysis_of_unresolved env
                    (resolve_file_processing_error env initialUi Hmode Hsel Hextract Hclass)).
        -- apply (analysis_of_unresolved env
                    (resolve_other_error env initialUi Hmode Hsel Hextract Hclass)).
    + apply (analysis_of_unresolved env (resolve_no_file env initialUi Hmode Hsel)).
Qed.

(** What the analysis calls and logs on its way, read off the inputs. *)
Lemma analysis_events_table (env : Env) :
  analysis_events env
  = match inputMode env with
    | ModeText =>
        if blank (inputText env) then []
        else [CallAnalyzeContent (inputText env)]
    | ModeFile =>
        match selectedFile env with
        | None => []
        | Some file =>
            CallExtractTextFromFile file ::
            match extractTextFromFile env file with
            | Returned extracted =>
                if blank extracted then []
                else [CallAnalyzeContent extracted]
            | Thrown err =>
                if instanceof_FileProcessingError err
                then [ConsoleError (lit "File processing error:") err]
                else []
            end
        end
    end.
Proof.
  destruct (inputMode env) eqn:Hmode.
  - destruct (blank (inputText env)) eqn:Hblank.
    + apply (analysis_of_unresolved env (resolve_blank_text env initialUi Hmode Hblank)).
    + apply (analysis_of_resolved env (resolve_text env initialUi Hmode Hblank)).
  - destruct (selectedFile env) as [file|] eqn:Hsel.
    + destruct (extractTextFromFile env file) as [extracted|err] eqn:Hextract.
      * destruct (blank extracted) eqn:Hblank.
        -- apply (analysis_of_unresolved env
                    (resolve_blank_extraction env initialUi Hmode Hsel Hextract Hblank)).
        -- apply (analysis_of_resolved env
                    (resolve_extraction env initialUi Hmode Hsel Hextract Hblank)).
      * destruct (instanceof_FileProcessingError err) eqn:Hclass.
        -- apply (analysis_of_unresolved env
                    (resolve_file_processing_error env initialUi Hmode Hsel Hextract Hclass)).
        -- apply (analysis_of_unresolved env
                    (resolve_other_error env initialUi Hmode Hsel Hextract Hclass)).
    + apply (analysis_of_unresolved env (resolve_no_file env initialUi Hmode Hsel)).
Qed.

(** Only the analysis calls the collaborators. *)
Lemma calls_events (env : Env) :
  calls (events env) = calls (analysis_events env).
Proof.
  rewrite events_shape. unfold calls. rewrite !filter_app. unfold completion.
  destruct (analysis_outcome env); simpl; rewrite !app_nil_r; reflexivity.
Qed.

(** An invocation is its analysis: same outcome, same events and same
    fallback text give the same events and the same final state. *)
Lemma same_analysis_same_invocation (env env' : Env) :
  analysis_outcome env = analysis_outcome env' ->
  analysis_events env = analysis_events env' ->
  t env errorGeneric = t env' errorGeneric ->
  events env = events env' /\ forall s, settled env s = settled env' s.
Proof.
  intros Ho He Ht. split.
  - rewrite !events_shape. unfold completion, surfaced. rewrite Ho, He, Ht.
    reflexivity.
  - intros s. rewrite !settled_by_outcome. unfold surfaced. rewrite Ho, Ht.
    reflexivity.
Qed.

(** *** The file path that succeeds *)

(** X1. In file mode, when the extractor answers with a text that is
    not blank, the text resolution returns that text as it is; the
    extractor is called once, with the selected file, and then the
    analysis client once, with the extracted text untrimmed; what the
    client answers is what the analysis ends with, and a result it
    returns is published with the error cell null. *)
Theorem extracted_text_sent_untrimmed (env : Env) (s : UiState)
  (file : File) (extracted : JsString) :
  inputMode env = ModeFile ->
  selectedFile env = Some file ->
  extractTextFromFile env file = Returned extracted ->
  blank extracted = false ->
  fst (getTextToAnalyze env (start s)) = Returned extracted
  /\ calls (events env)
     = [CallExtractTextFromFile file; CallAnalyzeContent extracted]
  /\ analysis_outcome env = analyzeContent env extracted
  /\ (forall result,
        analyzeContent env extracted = Returned result ->
        settled env s
        = {| analysisResult := Some result; isLoading := false; error := None |}).
Proof.
  intros Hmode Hsel Hextract Hblank.
  destruct (analysis_of_resolved env
              (resolve_extraction env initialUi Hmode Hsel Hextract Hblank))
    as [Hout Hev].
  split; [|split; [|split]].
  - rewrite (resolve_extraction env s Hmode Hsel Hextract Hblank). reflexivity.
  - rewrite calls_events, Hev. reflexivity.
  - exact Hout.
  - intros result Hres. rewrite settled_by_outcome, Hout, Hres. reflexivity.
Qed.

Lemma extracted_text_sent_untrimmed_witness :
  blank paddedText = false
  /\ trim paddedText <> paddedText
  /\ calls (events (fileEnv (Some sampleFile) (extractorYields paddedText) clientOk))
     = [CallExtractTextFromFile sampleFile; CallAnalyzeContent paddedText]
  /\ settled (fileEnv (Some sampleFile) (extractorYields paddedText) clientOk) initialUi
     = {| analysisResult := Some sampleResult; isLoading := false; error := None |}.
Proof.
  destruct (@extracted_text_sent_untrimmed
              (fileEnv (Some sampleFile) (extractorYields paddedText) clientOk)
              initialUi sampleFile paddedText)
    as [_ [Hcalls [_ Hpub]]];
    [reflexivity | reflexivity | reflexivity | vm_compute; reflexivity |].
  split; [vm_compute; reflexivity|]. split; [vm_compute; discriminate|].
  split; [exact Hcalls|]. apply Hpub. reflexivity.
Defined.

(** *** Which collaborator is called, and when *)

(** X2. The calls an invocation makes to its collaborators are these
    and no others, in this order: in text mode, the analysis client with
    the input when the input is not blank; in file mode with a file, the
    extractor with that file, then the analysis client with the
    extracted text when the extractor answered with a text that is not
    blank.  So each collaborator is called at most once, the extractor
    first, and the client is never called on a blank text or after a
    failed extraction. *)
Theorem collaborator_calls (env : Env) :
  calls (events env)
  = match inputMode env with
    | ModeText =>
        if blank (inputText env) then []
        else [CallAnalyzeContent (inputText env)]
    | ModeFile =>
        match selectedFile env with
        | None => []
        | Some file =>
            CallExtractTextFromFile file ::
            match extractTextFromFile env file with
            | Returned extracted =>
                if blank extracted then []
                else [CallAnalyzeContent extracted]
            | Thrown _ => []
            end
        end
    end.
Proof.
  rewrite calls_events, analysis_events_table.
  destruct (inputMode env).
  - destruct (blank (inputText env)); reflexivity.
  - destruct (selectedFile env) as [file|]; [|reflexivity].
    destruct (extractTextFromFile env file) as [extracted|err].
    + destruct (blank extracted); reflexivity.
    + destruct (instanceof_FileProcessingError err); reflexivity.
Qed.

(** *** One input cell per request *)

(** X3. A text-mode request reads neither the selected file nor the
    extractor: with any other file cell and any other extractor, its
    events and the state it ends in are the same. *)
Theorem text_mode_reads_text_only (env : Env) (sel : option File)
  (extractor : File -> Outcome JsString) :
  inputMode env = ModeText ->
  events {| t := t env; inputMode := inputMode env; inputText := inputText env;
            selectedFile := sel; extractTextFromFile := extractor;
            analyzeContent := analyzeContent env |}
  = events env
  /\ forall s,
       settled {| t := t env; inputMode := inputMode env; inputText := inputText env;
                  selectedFile := sel; extractTextFromFile := extractor;
                  analyzeContent := analyzeContent env |} s
       = settled env s.
Proof.
  intros Hmode. apply same_analysis_same_invocation.
  - rewrite !analysis_outcome_table. cbn [inputMode inputText analyzeContent t].
    rewrite Hmode. reflexivity.
  - rewrite !analysis_events_table. cbn [inputMode inputText analyzeContent t].
    rewrite Hmode. reflexivity.
  - reflexivity.
Qed.

Lemma text_mode_reads_text_only_witness :
  inputMode (textEnv (lit "hello") clientOk) = ModeText
  /\ events {| t := Localization.t ar; inputMode := ModeText;
               inputText := lit "hello"; selectedFile := Some sampleFile;
               extractTextFromFile := extractorThrows unsupportedFile;
               analyzeContent := clientOk |}
     = events (textEnv (lit "hello") clientOk).
Proof.
  split; [reflexivity|].
  exact (proj1 (@text_mode_reads_text_only (textEnv (lit "hello") clientOk)
                  (Some sampleFile) (extractorThrows unsupportedFile) eq_refl)).
Defined.

(** X4. A file-mode request does not read the text cell: with any other
    input text, its events and the state it ends in are the same. *)
Theorem file_mode_reads_file_only (env : Env) (text : JsString) :
  inputMode env = ModeFile ->
  events {| t := t env; inputMode := inputMode env; inputText := text;
            selectedFile := selectedFile env;
            extractTextFromFile := extractTextFromFile env;
            analyzeContent := analyzeContent env |}
  = events env
  /\ forall s,
       settled {| t := t env; inputMode := inputMode env; inputText := text;
                  selectedFile := selectedFile env;
                  extractTextFromFile := extractTextFromFile env;
                  analyzeContent := analyzeContent env |} s
       = settled env s.
Proof.
  intros Hmode. apply same_analysis_same_invocation.
  - rewrite !analysis_outcome_table.
    cbn [inputMode inputText selectedFile extractTextFromFile analyzeContent t].
    rewrite Hmode. reflexivity.
  - rewrite !analysis_events_table.
    cbn [inputMode inputText selectedFile extractTextFromFile analyzeContent t].
    rewrite Hmode. reflexivity.
  - reflexivity.
Qed.

Lemma file_mode_reads_file_only_witness :
  inputMode (fileEnv (Some sampleFile) (extractorYields (lit "text")) clientOk)
  = ModeFile
  /\ events {| t := Localization.t ar; inputMode := ModeFile;
               inputText := whitespaceOnly; selectedFile := Some sampleFile;
               extractTextFromFile := extractorYields (lit "text");
               analyzeContent := clientOk |}
     = events (fileEnv (Some sampleFile) (extractorYields (lit "text")) clientOk).
Proof.
  split; [reflexivity|].
  exact (proj1 (@file_mode_reads_file_only
                  (fileEnv (Some sampleFile) (extractorYields (lit "text")) clientOk)
                  whitespaceOnly eq_refl)).
Defined.

(** *** What a request leaves behind *)


(** X6. After any sequence of requests made one after the other on a
    freshly mounted component, the state is the one the last request
    alone would have left: the loading flag is off, and exactly one of
    the result cell and the error cell holds something. *)
Theorem session_last_request_wins (history : list Env) (env : Env) :
  session (history ++ [env]) = settled env initialUi
  /\ isLoading (session (history ++ [env])) = false
  /\ ((populated (analysisResult (session (history ++ [env])))
       /\ error (session (history ++ [env])) = None)
      \/ (analysisResult (session (history ++ [env])) = None
          /\ populated (error (session (history ++ [env]))))).
Proof.
  assert (session (history ++ [env]) = settled env initialUi) as Hlast.
  { unfold session. rewrite fold_left_app. simpl.
    rewrite !settled_by_outcome. reflexivity. }
  rewrite Hlast, settled_by_outcome. split; [reflexivity|].
  destruct (analysis_outcome env); simpl.
  - split; [reflexivity|]. left. split; [discriminate | reflexivity].
  - split; [reflexivity|]. right. split; [reflexivity | discriminate].
Qed.

(** *** What is logged *)

Lemma console_events (env : Env) :
  console_lines (events env)
  = console_lines (analysis_events env) ++ console_lines (completion env).
Proof.
  rewrite events_shape. unfold console_lines. rewrite !filter_app.
  simpl. rewrite app_nil_r. reflexivity.
Qed.

(** X7. A request that succeeds logs nothing.  A request that fails
    logs the error that reached the top, once, under "Analysis failed:",
    as its last line; the only line that can come before it is the
    extractor's own [FileProcessingError], logged under "File processing
    error:" before it is replaced. *)
Theorem failures_logged (env : Env) :
  (forall result,
     analysis_outcome env = Returned result -> console_lines (events env) = [])
  /\ (forall err,
        analysis_outcome env = Thrown err ->
        exists before,
          console_lines (events env)
          = before ++ [ConsoleError (lit "Analysis failed:") err]
          /\ (before = []
              \/ exists file original,
                   inputMode env = ModeFile
                   /\ selectedFile env = Some file
                   /\ extractTextFromFile env file = Thrown original
                   /\ instanceof_FileProcessingError original = true
                   /\ before = [ConsoleError (lit "File processing error:") original])).
Proof.
  split.
  - intros result Hout. rewrite console_events. unfold completion. rewrite Hout.
    rewrite analysis_outcome_table in Hout. rewrite analysis_events_table.
    destruct (inputMode env).
    + destruct (blank (inputText env)); reflexivity.
    + destruct (selectedFile env) as [file|]; [|reflexivity].
      destruct (extractTextFromFile env file) as [extracted|original].
      * destruct (blank extracted); reflexivity.
      * destruct (instanceof_FileProcessingError original); discriminate.
  - intros err Hout. rewrite console_events. unfold completion. rewrite Hout.
    exists (console_lines (analysis_events env)). split; [reflexivity|].
    rewrite analysis_events_table.
    destruct (inputMode env) eqn:Hmode.
    + left. destruct (blank (inputText env)); reflexivity.
    + destruct (selectedFile env) as [file|] eqn:Hsel; [|left; reflexivity].
      destruct (extractTextFromFile env file) as [extracted|original] eqn:Hextract.
      * left. destruct (blank extracted); reflexivity.
      * destruct (instanceof_FileProcessingError original) eqn:Hclass.
        -- right. exists file, original. repeat split; assumption.
        -- left. reflexivity.
Qed.

Lemma failures_logged_witness :
  analysis_outcome (fileEnv (Some sampleFile) (extractorThrows unsupportedFile) clientOk)
  = Thrown (new_Error (entry ar errorFileRead))
  /\ exists before,
       console_lines
         (events (fileEnv (Some sampleFile) (extractorThrows unsupportedFile) clientOk))
       = before
         ++ [ConsoleError (lit "Analysis failed:") (new_Error (entry ar errorFileRead))].
Proof.
  assert (analysis_outcome
            (fileEnv (Some sampleFile) (extractorThrows unsupportedFile) clientOk)
          = Thrown (new_Error (entry ar errorFileRead))) as Hout
    by (vm_compute; reflexivity).
  split; [exact Hout|].
  destruct (proj2 (failures_logged
                     (fileEnv (Some sampleFile) (extractorThrows unsupportedFile)
                        clientOk)) _ Hout)
    as [before [Hlines _]].
  exists before. exact Hlines.
Defined.

(** *** Where a published error comes from *)

(** X8. Once the text is resolved, whatever the analysis client throws
    reaches the top of the lifecycle as it is, a [FileProcessingError]
    included: the replacement by the "file read" message is for
    failures of the extractor only.  The error cell ends up with the
    message of what was thrown (the generic message when it is no
    [Error]) and the result cell is null. *)
Theorem client_failure_not_remapped (env : Env) (s : UiState)
  (text : JsString) (err : JsThrown) :
  fst (getTextToAnalyze env (start initialUi)) = Returned text ->
  analyzeContent env text = Thrown err ->
  analysis_outcome env = Thrown err
  /\ error (settled env s)
     = Some match message_text err with
            | Some m => m
            | None => t env errorGeneric
            end
  /\ analysisResult (settled env s) = None.
Proof.
  intros Hres Hclient.
  destruct (getTextToAnalyze env (start initialUi)) as [o w] eqn:Hget.
  simpl in Hres. subst o.
  destruct (analysis_of_resolved env Hget) as [Hout _].
  rewrite Hclient in Hout.
  rewrite settled_by_outcome, Hout. repeat split.
Qed.

Lemma client_failure_not_remapped_witness :
  fst (getTextToAnalyze
         (fileEnv (Some sampleFile) (extractorYields (lit "text"))
            (fun _ => Thrown unsupportedFile))
         (start initialUi))
  = Returned (lit "text")
  /\ instanceof_FileProcessingError unsupportedFile = true
  /\ error (settled (fileEnv (Some sampleFile) (extractorYields (lit "text"))
                       (fun _ => Thrown unsupportedFile)) initialUi)
     = Some (lit "Unsupported file type.").
Proof.
  destruct (@client_failure_not_remapped
              (fileEnv (Some sampleFile) (extractorYields (lit "text"))
                 (fun _ => Thrown unsupportedFile))
              initialUi (lit "text") unsupportedFile)
    as [_ [Herr _]]; [vm_compute; reflexivity | reflexivity |].
  split; [vm_compute; reflexivity|]. split; [reflexivity|].
  rewrite Herr. reflexivity.
Defined.

(** X9. The text an invocation publishes in the error cell is always
    one of the five localized messages, or the message of an [Error]
    that the extractor or the analysis client threw. *)
Theorem published_error_origin (env : Env) (s : UiState) (m : JsString) :
  error (settled env s) = Some m ->
  m = t env errorNoText
  \/ m = t env errorNoFile
  \/ m = t env errorNoTextExtracted
  \/ m = t env errorFileRead
  \/ m = t env errorGeneric
  \/ (exists file cls,
        selectedFile env = Some file
        /\ extractTextFromFile env file = Thrown (ErrorObject cls m))
  \/ (exists text cls, analyzeContent env text = Thrown (ErrorObject cls m)).
Proof.
  assert (forall text,
            error match analyzeContent env text with
                  | Returned result =>
                      {| analysisResult := Some result; isLoading := false;
                         error := None |}
                  | Thrown err =>
                      {| analysisResult := None; isLoading := false;
                         error := Some (surfaced env err) |}
                  end = Some m ->
            m = t env errorGeneric
            \/ exists text cls, analyzeContent env text = Thrown (ErrorObject cls m))
    as Hclient.
  { intros text H. destruct (analyzeContent env text) as [result|err] eqn:Hc;
      [discriminate|].
    destruct err as [cls msg|v]; simpl in H; injection H as <-.
    - right. exists text, cls. exact Hc.
    - left. reflexivity. }
  rewrite settled_by_outcome, analysis_outcome_table.
  destruct (inputMode env).
  - destruct (blank (inputText env)).
    + simpl. intros H. injection H as <-. left. reflexivity.
    + intros H. destruct (Hclient _ H) as [Hg|Hc]; [|do 6 right; exact Hc].
      do 4 right. left. exact Hg.
  - destruct (selectedFile env) as [file|].
    + destruct (extractTextFromFile env file) as [extracted|err] eqn:Hextract.
      * destruct (blank extracted).
        -- simpl. intros H. injection H as <-. do 2 right. left. reflexivity.
        -- intros H. destruct (Hclient _ H) as [Hg|Hc]; [|do 6 right; exact Hc].
           do 4 right. left. exact Hg.
      * destruct (instanceof_FileProcessingError err).
        -- simpl. intros H. injection H as <-. do 3 right. left. reflexivity.
        -- destruct err as [cls msg|v]; simpl; intros H; injection H as <-.
           ++ do 5 right. left. exists file, cls. split; [reflexivity | exact Hextract].
           ++ do 4 right. left. reflexivity.
    + simpl. intros H. injection H as <-. right. left. reflexivity.
Qed.

Lemma published_error_origin_witness :
  error (settled (textEnv (lit "hello") clientDown) initialUi)
  = Some (lit "Failed to analyze content.")
  /\ exists text cls,
       clientDown text = Thrown (ErrorObject cls (lit "Failed to analyze content.")).
Proof.
  assert (error (settled (textEnv (lit "hello") clientDown) initialUi)
          = Some (lit "Failed to analyze content.")) as Herr
    by (vm_compute; reflexivity).
  split; [exact Herr|].
  destruct (@published_error_origin (textEnv (lit "hello") clientDown) initialUi
              (lit "Failed to analyze content.") Herr)
    as [H|[H|[H|[H|[H|[H|H]]]]]];
    try (vm_compute in H; discriminate H).
  - destruct H as [file [cls [Hsel _]]]. discriminate Hsel.
  - exact H.
Defined.

(** *** The state the collaborators are called in *)




End LifecycleFacts.

(* ===================================================================== *)
(** ** More facts about [trim] *)
(* ===================================================================== *)

Module TrimFacts.

Import Js JsFacts Samples.

Lemma trimStart_head (s : JsString) (c : N) (r : JsString) :
  trimStart s = c :: r -> strippable c = false.
Proof.
  induction s as [|x s IH]; simpl; [discriminate|].
  destruct (strippable x) eqn:Hx; [exact IH|].
  intros H. injection H as <- _. exact Hx.
Qed.

Lemma trimStart_fixed (s : JsString) :
  (forall c r, s = c :: r -> strippable c = false) -> trimStart s = s.
Proof.
  destruct s as [|c r]; [reflexivity|].
  intros H. simpl. rewrite (H c r eq_refl). reflexivity.
Qed.

(** What [trimEnd] removes is a blank end of the string. *)
Lemma trimEnd_prefix (s : JsString) :
  exists q, s = trimEnd s ++ q /\ blank q = true.
Proof.
  destruct (trimStart_suffix (rev s)) as [p [Hp Hb]].
  exists (rev p). split.
  - unfold trimEnd. rewrite <- rev_app_distr, <- Hp, rev_involutive. reflexivity.
  - rewrite blank_rev. exact Hb.
Qed.

Lemma trimEnd_last (s r : JsString) (c : N) :
  trimEnd s = r ++ [c] -> strippable c = false.
Proof.
  unfold trimEnd. intros H.
  apply (f_equal (@rev N)) in H. rewrite rev_involutive, rev_app_distr in H.
  simpl in H. exact (@trimStart_head (rev s) c (rev r) H).
Qed.

(** X17. [trim], as the orchestrator uses it to test for blank input,
    only drops white space and line terminators at the two ends: the
    string is a blank part, then the trimmed string, then a blank part;
    the trimmed string neither starts nor ends with such a code unit;
    and trimming twice is trimming once. *)
Theorem trim_ends_only (s : JsString) :
  (exists p q, s = p ++ trim s ++ q /\ blank p = true /\ blank q = true)
  /\ (forall c r, trim s = c :: r -> strippable c = false)
  /\ (forall r c, trim s = r ++ [c] -> strippable c = false)
  /\ trim (trim s) = trim s.
Proof.
  assert (forall c r, trim s = c :: r -> strippable c = false) as Hhead.
  { intros c r H. unfold trim in H.
    destruct (trimEnd_prefix (trimStart s)) as [q [Hq _]].
    rewrite H in Hq. simpl in Hq. exact (@trimStart_head s c (r ++ q) Hq). }
  assert (forall r c, trim s = r ++ [c] -> strippable c = false) as Hlast.
  { intros r c H. exact (@trimEnd_last (trimStart s) r c H). }
  split; [|split; [exact Hhead|split; [exact Hlast|]]].
  - destruct (trimStart_suffix s) as [p [Hp Hbp]].
    destruct (trimEnd_prefix (trimStart s)) as [q [Hq Hbq]].
    exists p, q. split; [|split; assumption].
    unfold trim. rewrite <- Hq. exact Hp.
  - unfold trim at 1. rewrite (trimStart_fixed Hhead).
    unfold trimEnd. rewrite trimStart_fixed; [apply rev_involutive|].
    intros c r H. apply (Hlast (rev r) c).
    rewrite <- (rev_involutive (trim s)), H. reflexivity.
Qed.

Lemma trim_ends_only_witness :
  trim paddedText = lit "hello"
  /\ strippable 0x68 = false
  /\ trim (trim paddedText) = trim paddedText.
Proof.
  assert (trim paddedText = lit "hello") as Htrim by (vm_compute; reflexivity).
  destruct (trim_ends_only paddedText) as [_ [Hhead [_ Hidem]]].
  split; [exact Htrim|]. split; [|exact Hidem].
  apply (Hhead 0x68%N (lit "ello")). rewrite Htrim. vm_compute. reflexivity.
Defined.

End TrimFacts.

(* ===================================================================== *)
(** ** More facts about the lookup [t] and the tables *)
(* ===================================================================== *)

Module TableFacts.

Import Js Localization LocalizationFacts Samples.

Lemma js_or_truthy (a b : option JsString) :
  (exists s, js_or a b = Some s /\ truthy s = true)
  <-> (exists s, a = Some s /\ truthy s = true)
      \/ (exists s, b = Some s /\ truthy s = true).
Proof.
  unfold js_or. destruct a as [x|].
  - destruct (truthy x) eqn:Hx.
    + split; [intros _; left; exists x; split; [reflexivity | exact Hx]|].
      intros _. exists x. split; [reflexivity | exact Hx].
    + split; [intros H; right; exact H|].
      intros [[s [Hs Ht]]|H]; [|exact H].
      injection Hs as <-. congruence.
  - split; [intros H; right; exact H|].
    intros [[s [Hs _]]|H]; [discriminate | exact H].
Qed.

(** X11. Over any pair of tables, [t] yields a non-empty string exactly
    when the table of the active language or the English table has a
    non-empty entry for the key, and yields [undefined] exactly when the
    English table lacks the key and the table of the active language
    has no entry for it or an empty one. *)
Theorem t_nonempty_iff (tr : Language -> Table) (lang : Language)
  (key : TranslationKey) :
  ((exists s, t_in tr lang key = Some s /\ truthy s = true)
   <-> (exists s, get (tr lang) key = Some s /\ truthy s = true)
       \/ (exists s, get (tr en) key = Some s /\ truthy s = true))
  /\ (t_in tr lang key = None
      <-> get (tr en) key = None
          /\ (get (tr lang) key = None \/ get (tr lang) key = Some [])).
Proof.
  split; [apply js_or_truthy|].
  unfold t_in, js_or.
  destruct (get (tr lang) key) as [[|c r]|]; simpl.
  - split; [intros H; split; [exact H | right; reflexivity] | intros [H _]; exact H].
  - split; [discriminate | intros [_ [H|H]]; discriminate].
  - split; [intros H; split; [exact H | left; reflexivity] | intros [H _]; exact H].
Qed.

Lemma t_nonempty_iff_witness :
  (get (sparse ar) summaryTitle = None
   /\ get (sparse en) summaryTitle = Some (lit "Summary")
   /\ exists s, t_in sparse ar summaryTitle = Some s /\ truthy s = true)
  /\ (get (sparse en) footerText = None
      /\ get (sparse ar) footerText = None
      /\ t_in sparse ar footerText = None).
Proof.
  split.
  - split; [reflexivity|]. split; [reflexivity|].
    apply (proj1 (t_nonempty_iff sparse ar summaryTitle)).
    right. exists (lit "Summary"). split; vm_compute; reflexivity.
  - split; [reflexivity|]. split; [reflexivity|].
    apply (proj2 (t_nonempty_iff sparse ar footerText)).
    split; [reflexivity | left; reflexivity].
Defined.

(** X12. The two tables of the source list the same keys, each key
    once; every key has a non-empty string in both languages, and the
    English and the Arabic string of a key are never the same: no label
    falls back, and every label changes with the language. *)
Theorem tables_fully_localized :
  map fst (translations ar) = map fst (translations en)
  /\ NoDup (map fst (translations en))
  /\ forall key,
       truthy (t en key) = true
       /\ truthy (t ar key) = true
       /\ t en key <> t ar key.
Proof.
  split; [vm_compute; reflexivity|]. split.
  - cbn [translations translations_en map fst].
    repeat (apply NoDup_cons;
            [cbn [In]; intros H;
             repeat (destruct H as [H|H]; [discriminate H|]); exact H|]).
    apply NoDup_nil.
  - intros key. rewrite !t_entry.
    destruct (translations_total en key) as [a [Ha Hta]].
    destruct (translations_total ar key) as [b [Hb Htb]].
    unfold entry at 1 2. rewrite Ha, Hb.
    split; [exact Hta|]. split; [exact Htb|]. apply entry_en_ar_differ.
Qed.

End TableFacts.

(* ===================================================================== *)
(** ** More facts about the language switch *)
(* ===================================================================== *)

Module SwitchFacts.

Import Js Localization Shell LocalizationFacts ShellFacts.

Lemma synced_document (s : AppState) :
  synced s ->
  document s
  = {| lang := code (language s);
       dir := if Language_eqb (language s) ar then lit "rtl" else lit "ltr" |}.
Proof. intros H. unfold synced, languageEffect in H. exact H. Qed.

Lemma setLanguage_language (l : Language) (s : AppState) :
  language (setLanguage l s) = l.
Proof.
  unfold setLanguage. destruct (Language_eqb l (language s)) eqn:H.
  - apply Language_eqb_eq in H. congruence.
  - reflexivity.
Qed.

(** X13. On a mounted app the last [setLanguage] call decides: after
    any sequence of calls the language is the one of the last call
    (Arabic when there was none), the document attributes are that
    language and its direction, whatever the document held before the
    mount, and [t] reads the table of that language. *)
Theorem last_call_wins (d : Document) (calls : list Language) :
  language (after_calls d calls) = last calls ar
  /\ document (after_calls d calls)
     = {| lang := code (last calls ar);
          dir := match last calls ar with
                 | ar => lit "rtl"
                 | en => lit "ltr"
                 end |}
  /\ (forall key, Shell.t (after_calls d calls) key = entry (last calls ar) key).
Proof.
  assert (language (after_calls d calls) = last calls ar) as Hlang.
  { unfold after_calls.
    destruct calls as [|l r] using rev_ind; [reflexivity|].
    rewrite fold_left_app, last_last. apply setLanguage_language. }
  split; [exact Hlang|]. split.
  - rewrite (synced_document (mounted_synced d calls)), Hlang.
    destruct (last calls ar); reflexivity.
  - intros key. unfold Shell.t. rewrite Hlang. apply t_entry.
Qed.

(** X14. Setting the language the app already has changes nothing, the
    document included; so setting a language twice is the same as
    setting it once. *)
Theorem setLanguage_idempotent (s : AppState) (l : Language) :
  (language s = l -> setLanguage l s = s)
  /\ setLanguage l (setLanguage l s) = setLanguage l s.
Proof.
  assert (forall u, language u = l -> setLanguage l u = u) as Hsame.
  { intros u Hu. unfold setLanguage.
    destruct (Language_eqb l (language u)) eqn:H; [reflexivity|].
    rewrite <- Hu in H. destruct (language u); discriminate. }
  split; [apply Hsame|]. apply Hsame, setLanguage_language.
Qed.

Lemma setLanguage_idempotent_witness :
  language {| language := en; document := {| lang := lit "fr"; dir := lit "rtl" |} |}
  = en
  /\ setLanguage en
       {| language := en; document := {| lang := lit "fr"; dir := lit "rtl" |} |}
     = {| language := en; document := {| lang := lit "fr"; dir := lit "rtl" |} |}.
Proof.
  split; [reflexivity|].
  exact (proj1 (setLanguage_idempotent
                  {| language := en;
                     document := {| lang := lit "fr"; dir := lit "rtl" |} |} en)
           eq_refl).
Defined.

(** X15. Switching to another language and back restores the app as it
    was, document attributes included, when these followed the language
    cell to begin with. *)
Theorem switch_and_back (s : AppState) (l : Language) :
  synced s ->
  setLanguage (language s) (setLanguage l s) = s.
Proof.
  intros Hs. destruct s as [l0 doc]. unfold synced in Hs. simpl in Hs.
  unfold setLanguage. cbn [language document].
  destruct l, l0; cbn [Language_eqb language document]; try reflexivity;
    rewrite Hs at 2; reflexivity.
Qed.

Lemma switch_and_back_witness :
  synced (mount {| lang := lit "en"; dir := lit "ltr" |})
  /\ setLanguage ar (setLanguage en (mount {| lang := lit "en"; dir := lit "ltr" |}))
     = mount {| lang := lit "en"; dir := lit "ltr" |}.
Proof.
  split; [reflexivity|].
  exact (@switch_and_back (mount {| lang := lit "en"; dir := lit "ltr" |}) en eq_refl).
Defined.

End SwitchFacts.

(* ===================================================================== *)
(** ** Facts about the localization context *)
(* ===================================================================== *)

Module ProviderFacts.

Import Js Localization Effects Orchestrator Provider.
Import JsFacts LocalizationFacts OrchestratorFacts SwitchFacts.

(** The [t] of the context [App] provides reads the table of the
    language that was set last. *)
Lemma provided_t (s : Shell.AppState) (l : Language) (key : TranslationKey) :
  Provider.t (providerValue (Shell.setLanguage l s)) key = entry l key.
Proof.
  unfold providerValue, Shell.t. cbn [Provider.t].
  rewrite setLanguage_language. apply t_entry.
Qed.

(** X16. Under [App], [useLocalization] never throws, and the messages
    of a request are those of the language set last: after
    [setLanguage l], a blank text is rejected with the [errorNoText]
    string of the table of [l], a missing file with its [errorNoFile]
    string, and a thrown value that is no [Error] is published as its
    [errorGeneric] string. *)
Theorem messages_follow_active_language (s : Shell.AppState) (l : Language)
  (text : JsString) (sel : option File)
  (extractor : File -> Outcome JsString)
  (client : JsString -> Outcome AnalysisResult) (u : UiState) :
  exists c,
    useLocalization (Some (providerValue (Shell.setLanguage l s))) = Returned c
    /\ Provider.language c = l
    /\ (blank text = true ->
        error (settled (contentEnv c ModeText text sel extractor client) u)
        = Some (entry l errorNoText))
    /\ error (settled (contentEnv c ModeFile text None extractor client) u)
       = Some (entry l errorNoFile)
    /\ (forall v,
          blank text = false -> client text = Thrown (NonError v) ->
          error (settled (contentEnv c ModeText text sel extractor client) u)
          = Some (entry l errorGeneric)).
Proof.
  exists (providerValue (Shell.setLanguage l s)).
  split; [reflexivity|]. split; [apply setLanguage_language|].
  split; [|split].
  - intros Hblank.
    pose (env := contentEnv (providerValue (Shell.setLanguage l s))
                   ModeText text sel extractor client).
    destruct (@unresolved_invocation env u _ _
                (resolve_blank_text env initialUi eq_refl Hblank)) as [Hend _].
    fold env. rewrite Hend. cbn [error surfaced message_text new_Error].
    f_equal. apply provided_t.
  - pose (env := contentEnv (providerValue (Shell.setLanguage l s))
                   ModeFile text None extractor client).
    destruct (@unresolved_invocation env u _ _
                (resolve_no_file env initialUi eq_refl eq_refl)) as [Hend _].
    fold env. rewrite Hend. cbn [error surfaced message_text new_Error].
    f_equal. apply provided_t.
  - intros v Hblank Hclient.
    pose (env := contentEnv (providerValue (Shell.setLanguage l s))
                   ModeText text sel extractor client).
    destruct (analysis_of_resolved env (resolve_text env initialUi eq_refl Hblank))
      as [Hout _].
    fold env. rewrite settled_by_outcome, Hout.
    cbn [env contentEnv analyzeContent inputText]. rewrite Hclient.
    cbn [error surfaced message_text Orchestrator.t]. f_equal. apply provided_t.
Qed.

Lemma messages_follow_active_language_witness :
  blank Samples.whitespaceOnly = true
  /\ exists c,
       useLocalization
         (Some (providerValue
                  (Shell.setLanguage en
                     (Shell.mount {| Shell.lang := lit "ar"; Shell.dir := lit "rtl" |}))))
       = Returned c
       /\ error (settled (contentEnv c ModeText Samples.whitespaceOnly None
                            (Samples.extractorYields []) Samples.clientOk) initialUi)
          = Some (entry en errorNoText).
Proof.
  assert (blank Samples.whitespaceOnly = true) as Hblank by (vm_compute; reflexivity).
  split; [exact Hblank|].
  destruct (messages_follow_active_language
              (Shell.mount {| Shell.lang := lit "ar"; Shell.dir := lit "rtl" |}) en
              Samples.whitespaceOnly None (Samples.extractorYields [])
              Samples.clientOk initialUi)
    as [c [Huse [_ [Htext _]]]].
  exists c. split; [exact Huse | exact (Htext Hblank)].
Defined.

End ProviderFacts.
